(** * GRF_Analysis: the gene-level pipeline of the COVID-19 risk tutorial

    A shallow embedding of [scripts/create_synthetic_dataset.py] and
    [scripts/test_tutorial.py], and of the requirements list of [setup.py].

    Numeric conventions.  Python [int] values are [Z] or [nat]; NumPy
    [float64] values are idealised as real numbers ([R]), so rounding is
    outside the model; a float operation whose result is not a finite
    number ([nan], [inf]) is a failure ([None]).  The ratio of two integer
    counts computed by the enrichment scorer is a rational ([Q]), and the
    division raises on a zero divisor.  Where the order of two scores is at
    stake, rounding matters: there the score is also given with its
    rounding ([calculate_risk_score_fl]) and on binary64 floats
    ([risk_score_f64]).

    The pseudo-random generators of [random] and [numpy.random] are not part
    of the repository: they are the fields of the class [RandomSource], and
    the one contract the proofs rely on, that a sample lies in the half-open
    interval [0,1), is the hypothesis [sample_in_unit].  The centrality
    functions of networkx are the fields of the class [Centrality]. *)

From Stdlib Require Import List String Ascii Bool Arith ZArith Lia.
From Stdlib Require Import QArith Reals Lra.
From Stdlib Require Import ListSet Permutation Sorted Mergesort Orders.
From Stdlib Require Import DecimalString.
From Stdlib Require Import PrimFloat.
Import ListNotations.

Local Open Scope string_scope.
Local Open Scope list_scope.
Close Scope Q_scope.

(** ** Option as the monad of float failures *)

Definition obind {A B : Type} (o : option A) (k : A -> option B) : option B :=
  match o with
  | Some a => k a
  | None => None
  end.

Notation "x <-? o ;; k" := (obind o (fun x => k))
  (at level 61, o at next level, right associativity).

(** ** The table of variant records *)

(** One row of the variant table.  [chromosomal_location] and [sample_size]
    are the two columns only [generate_covid_risk_variants] writes. *)
Record VariantRecord : Type := mkVariant {
  rs_id : string;
  chromosome : string;
  position : Z;
  chromosomal_location : option string;
  functional_consequence : string;
  host_gene : string;
  p_value : R;
  allele_frequency : R;
  odds_ratio : R;
  related_disease : string;
  study_population : string;
  sample_size : option Z
}.

(** A pandas [DataFrame]: the column labels and the rows. *)
Record DataFrame : Type := mkFrame {
  columns : list string;
  rows : list VariantRecord
}.

(** ** pandas Series reductions *)

Module Series.

(** [Series.unique()]: the distinct values in order of first appearance. *)
Definition unique (l : list string) : list string :=
  rev (nodup string_dec (rev l)).

(** [Series.min()]; the minimum of an empty series is [nan]. *)
Definition min (xs : list R) : option R :=
  match xs with
  | [] => None
  | x :: t => Some (fold_left Rmin t x)
  end.

Definition sum (xs : list R) : R := fold_left Rplus xs 0%R.

(** [Series.mean()]; the mean of an empty series is [nan]. *)
Definition mean (xs : list R) : option R :=
  match xs with
  | [] => None
  | _ :: _ => Some (sum xs / INR (List.length xs))%R
  end.

(** [sep.join(l)] *)
Fixpoint join (sep : string) (l : list string) : string :=
  match l with
  | [] => ""
  | [x] => x
  | x :: t => x ++ sep ++ join sep t
  end.

End Series.

(** ** Gene Aggregator: [df.groupby('host_gene').agg(...)] *)

Module StringOrder <: TotalLeBool.
Definition t := string.
Definition leb := String.leb.
Lemma leb_total : forall a1 a2, leb a1 a2 = true \/ leb a2 a1 = true.
Proof. exact String.leb_total. Qed.
End StringOrder.

Module StringSort := Sort StringOrder.

(** One row of [gene_summary]. *)
Record GeneSummary : Type := mkSummary {
  variant_count : nat;
  min_p_value : R;
  mean_odds_ratio : R;
  diseases : string
}.

(** The rows whose [host_gene] is [gene]: a group of the [groupby], and
    [df[df['host_gene'] == gene]]. *)
Definition gene_rows (df : list VariantRecord) (gene : string) : list VariantRecord :=
  filter (fun r => String.eqb (host_gene r) gene) df.

(** [groupby] sorts the group keys. *)
Definition group_keys (df : list VariantRecord) : list string :=
  StringSort.sort (Series.unique (map host_gene df)).

(** [x.unique()] in [test_tutorial.py] ([cap = None]), [x.unique()[:3]] in
    [create_synthetic_dataset.py] ([cap = Some 3]). *)
Definition cap_unique (cap : option nat) (l : list string) : list string :=
  match cap with
  | None => Series.unique l
  | Some n => firstn n (Series.unique l)
  end.

(** The four aggregations of one group. *)
Definition agg_group (cap : option nat) (g : list VariantRecord) : option GeneSummary :=
  m <-? Series.min (map p_value g) ;;
  a <-? Series.mean (map odds_ratio g) ;;
  Some {| variant_count := List.length (map rs_id g);
          min_p_value := m;
          mean_odds_ratio := a;
          diseases := Series.join ", " (cap_unique cap (map related_disease g)) |}.

Definition summary_row (cap : option nat) (df : list VariantRecord) (k : string)
  : list (string * GeneSummary) :=
  match agg_group cap (gene_rows df k) with
  | Some s => [(k, s)]
  | None => []
  end.

Definition gene_summary (cap : option nat) (df : list VariantRecord)
  : list (string * GeneSummary) :=
  flat_map (summary_row cap df) (group_keys df).

(** Lookup by key in a table indexed by gene, or in a dict with string keys. *)
Fixpoint lookup {A : Type} (k : string) (l : list (string * A)) : option A :=
  match l with
  | [] => None
  | (k', v) :: t => if String.eqb k' k then Some v else lookup k t
  end.

(** ** Risk Score Calculator *)

(** [np.log10] on the positive reals; at 0 and below the result is not a
    finite number. *)
Definition np_log10 (x : R) : option R :=
  if Rlt_dec 0 x then Some (ln x / ln 10)%R else None.

Definition calculate_risk_score (gene_data : list VariantRecord) : option R :=
  m <-? Series.min (map p_value gene_data) ;;
  l <-? np_log10 m ;;
  let p_score := (- l)%R in
  or_score <-? Series.mean (map odds_ratio gene_data) ;;
  let variant_score := INR (List.length gene_data) in
  let risk_score :=
    ((p_score * 0.4) + (or_score * 0.4) + (variant_score * 0.2))%R in
  Some risk_score.

(** The loop over [df['host_gene'].unique()] filling [gene_risk_scores]. *)
Definition gene_risk_scores (df : list VariantRecord) : list (string * option R) :=
  map (fun gene => (gene, calculate_risk_score (gene_rows df gene)))
      (Series.unique (map host_gene df)).

(** ** Pathway Enrichment Scorer *)

(** The fixed taxonomy of [test_tutorial.py], in dict order. *)
Definition pathway_categories : list (string * list string) :=
  [ ("Immune Response",
     ["IFNAR2"; "TYK2"; "OAS1"; "OAS2"; "OAS3"; "IFIH1"; "IRF7"; "IRF3";
      "STAT1"; "STAT2"]);
    ("Inflammatory Response",
     ["IL6"; "IL1B"; "TNF"; "CCL2"; "CXCL10"; "IFNG"; "IL10"; "IL4"; "IL13"]);
    ("Viral Entry", ["ACE2"; "TMPRSS2"]);
    ("Innate Immunity", ["CD14"; "TLR3"; "TLR7"]) ].

(** One value of the [pathway_enrichment] dict. *)
Record PathwayEnrichment : Type := mkEnrichment {
  overlap : nat;
  total : nat;
  enrichment_score : Q
}.

(** [set(l)]: a Python set, as a duplicate-free list. *)
Definition py_set (l : list string) : set string := nodup string_dec l.

(** [a / b] on two integers: true division, which raises
    [ZeroDivisionError] ([None]) when [b] is 0. *)
Definition truediv (a b : nat) : option Q :=
  if (b =? 0)%nat then None
  else Some (inject_Z (Z.of_nat a) / inject_Z (Z.of_nat b))%Q.

(** The body of the loop over [pathway_categories.items()]; [None] when it
    raises. *)
Definition enrichment_entry (genes unique_genes : list string)
  : option PathwayEnrichment :=
  let overlap := List.length (set_inter string_dec (py_set genes) (py_set unique_genes)) in
  let total_pathway_genes := List.length genes in
  enrichment_score <-?
    (if (0 <? total_pathway_genes)%nat
     then truediv overlap total_pathway_genes
     else Some 0%Q) ;;
  Some {| overlap := overlap;
          total := total_pathway_genes;
          enrichment_score := enrichment_score |}.

(** [for pathway, genes in pathway_categories.items(): ...]; an exception
    in the body ends the loop. *)
Fixpoint enrichment_loop (unique_genes : list string)
    (categories : list (string * list string))
  : option (list (string * PathwayEnrichment)) :=
  match categories with
  | [] => Some []
  | (pathway, genes) :: rest =>
      entry <-? enrichment_entry genes unique_genes ;;
      entries <-? enrichment_loop unique_genes rest ;;
      Some ((pathway, entry) :: entries)
  end.

Definition pathway_enrichment (categories : list (string * list string))
    (df : list VariantRecord) : option (list (string * PathwayEnrichment)) :=
  let unique_genes := Series.unique (map host_gene df) in
  enrichment_loop unique_genes categories.

(** ** networkx graphs *)

(** An undirected [nx.Graph]: the nodes in insertion order and one entry
    per edge, whichever way round it was first added. *)
Record Graph : Type := mkGraph {
  nodes : list string;
  edges : list (string * string * R)
}.

Definition empty_graph : Graph := {| nodes := []; edges := [] |}.

Definition has_node (n : string) (G : Graph) : bool :=
  existsb (String.eqb n) (nodes G).

(** [G.add_node(n)]: a node already in the graph is left alone. *)
Definition add_node (n : string) (G : Graph) : Graph :=
  if has_node n G then G
  else {| nodes := nodes G ++ [n]; edges := edges G |}.

(** Whether an edge entry joins [u] and [v], in either direction. *)
Definition joins (u v : string) (e : string * string * R) : bool :=
  let '(a, b, _) := e in
  (String.eqb a u && String.eqb b v) || (String.eqb a v && String.eqb b u).

Definition has_edge (u v : string) (G : Graph) : bool :=
  existsb (joins u v) (edges G).

(** [G.add_edge(u, v, weight=w)]: both ends become nodes; an edge already
    there only has its weight replaced. *)
Definition add_edge (u v : string) (w : R) (G : Graph) : Graph :=
  let G1 := add_node v (add_node u G) in
  if has_edge u v G1
  then {| nodes := nodes G1;
          edges := map (fun e => if joins u v e then (fst (fst e), snd (fst e), w) else e)
                       (edges G1) |}
  else {| nodes := nodes G1; edges := edges G1 ++ [(u, v, w)] |}.

Definition number_of_nodes (G : Graph) : nat := List.length (nodes G).
Definition number_of_edges (G : Graph) : nat := List.length (edges G).

(** ** The pseudo-random generators *)

(** The generators the scripts draw from.  [py_randbelow n] is
    [random._randbelow(n)], an integer below [n]; [np_random_sample] is
    [np.random.random_sample()], a float of the half-open interval [0,1);
    [np_randbelow n] is the bounded integer draw under [np.random.randint]
    and [np.random.choice].  The seeding functions are [random.seed] and
    [np.random.seed]. *)
Class RandomSource : Type := {
  py_state : Type;
  np_state : Type;
  py_randbelow : Z -> py_state -> Z * py_state;
  np_random_sample : np_state -> R * np_state;
  np_randbelow : Z -> np_state -> Z * np_state;
  py_seed : Z -> py_state;
  np_seed : Z -> np_state
}.

(** The documented contract of [random_sample]. *)
Definition sample_in_unit (RS : RandomSource) : Prop :=
  forall s : np_state, (0 <= fst (np_random_sample s) < 1)%R.

(** The process-wide state of the two generators. *)
Record world {RS : RandomSource} : Type := mkWorld {
  py : py_state;
  np : np_state
}.

(** Computations that advance the generators. *)
Definition Rand {RS : RandomSource} (A : Type) : Type := world -> A * world.

Definition ret {RS : RandomSource} {A : Type} (a : A) : Rand A :=
  fun w => (a, w).

Definition bind {RS : RandomSource} {A B : Type} (c : Rand A) (k : A -> Rand B)
  : Rand B :=
  fun w => let (a, w') := c w in k a w'.

Notation "x <- c ;; k" := (bind c (fun x => k))
  (at level 61, c at next level, right associativity).

(** [n] draws in a row: the [size] argument of the numpy draws, and the list
    comprehensions over [range(n_variants)]. *)
Fixpoint draws {RS : RandomSource} {A : Type} (n : nat) (c : Rand A) : Rand (list A) :=
  match n with
  | O => ret []
  | S k => x <- c ;; xs <- draws k c ;; ret (x :: xs)
  end.

Section Draws.
Context {RS : RandomSource}.

Definition lift_py {A : Type} (f : py_state -> A * py_state) : Rand A :=
  fun w => let (a, s) := f (py w) in (a, {| py := s; np := np w |}).

Definition lift_np {A : Type} (f : np_state -> A * np_state) : Rand A :=
  fun w => let (a, s) := f (np w) in (a, {| py := py w; np := s |}).

(** [random.randint(a, b)], both ends included. *)
Definition random_randint (a b : Z) : Rand Z :=
  r <- lift_py (py_randbelow (b - a + 1)) ;; ret (a + r)%Z.

(** [random.choice(seq)] *)
Definition random_choice (seq : list string) : Rand string :=
  i <- lift_py (py_randbelow (Z.of_nat (List.length seq))) ;;
  ret (nth (Z.to_nat i) seq "").

(** [np.random.random()] *)
Definition np_random_random : Rand R := lift_np np_random_sample.

(** [np.random.uniform(low, high)] *)
Definition np_random_uniform (low high : R) : Rand R :=
  u <- np_random_random ;; ret (low + (high - low) * u)%R.

(** [np.random.randint(low, high)], [high] excluded. *)
Definition np_random_randint (low high : Z) : Rand Z :=
  r <- lift_np (np_randbelow (high - low)) ;; ret (low + r)%Z.

(** [np.random.choice(a)] *)
Definition np_random_choice (a : list string) : Rand string :=
  i <- np_random_randint 0 (Z.of_nat (List.length a)) ;;
  ret (nth (Z.to_nat i) a "").

End Draws.

(** ** Dataset Generator: [create_synthetic_dataset.py] *)

(** [str(n)] of an integer, as an f-string interpolates it. *)
Definition str (n : Z) : string := NilEmpty.string_of_int (Z.to_int n).

Module Generator.

Definition chromosomes : list string :=
  map (fun i => "chr" ++ str (Z.of_nat i))%string (seq 1 22) ++ ["chrX"; "chrY"].

Definition functional_consequences : list string :=
  ["missense_variant"; "synonymous_variant"; "intron_variant";
   "upstream_gene_variant"; "downstream_gene_variant"; "3_prime_UTR_variant";
   "5_prime_UTR_variant"; "splice_region_variant"; "regulatory_region_variant"].

Definition covid_genes : list string :=
  ["ACE2"; "TMPRSS2"; "IFNAR2"; "TYK2"; "OAS1"; "OAS2"; "OAS3"; "IFIH1";
   "IRF7"; "IRF3"; "STAT1"; "STAT2"; "IL6"; "IL1B"; "TNF"; "CCL2";
   "CXCL10"; "IFNG"; "IL10"; "IL4"; "IL13"; "CD14"; "TLR3"; "TLR7";
   "TLR8"; "MYD88"; "IRAK4"; "IRF8"; "NLRP3"; "CASP1"; "IL18";
   "HMGB1"; "S100A8"; "S100A9"; "LCN2"; "RETN"; "ADIPOQ"; "LEP";
   "CRP"; "SAA1"; "APOE"; "LDLR"; "PCSK9"; "ANGPT2"; "VWF";
   "F8"; "SERPINE1"; "PLAT"; "PLG"; "FGB"; "FGA"; "FGG";
   "PROC"; "PROS1"; "THBD"; "EPCR"; "TFPI"; "AT3"; "PC"].

Definition related_diseases : list string :=
  ["Severe COVID-19"; "Respiratory failure"; "ARDS"; "Pneumonia";
   "Thrombosis"; "Cardiovascular disease"; "Diabetes"; "Hypertension";
   "Immune deficiency"; "Inflammatory response"; "Cytokine storm";
   "Sepsis"; "Multi-organ failure"; "Coagulopathy"].

(** The keys of the dict appended for each variant, in the order written. *)
Definition row_keys : list string :=
  ["rs_id"; "chromosome"; "position"; "chromosomal_location";
   "functional_consequence"; "host_gene"; "p_value"; "allele_frequency";
   "odds_ratio"; "related_disease"; "study_population"; "sample_size"].

(** [pd.DataFrame(data)] for a list of dicts that all have the keys [keys]:
    the columns are the keys met in the rows, so an empty list gives a frame
    with no column. *)
Definition DataFrame_of_records (keys : list string) (data : list VariantRecord)
  : DataFrame :=
  {| columns := match data with [] => [] | _ :: _ => keys end;
     rows := data |}.

Section GeneratorWithSource.
Context {RS : RandomSource}.

(** The body of the loop of [generate_covid_risk_variants]. *)
Definition generate_variant : Rand VariantRecord :=
  n <- random_randint 1000000 99999999 ;;
  let rs_id := ("rs" ++ str n)%string in
  chromosome <- random_choice chromosomes ;;
  position <- random_randint 1000000 200000000 ;;
  let location := (chromosome ++ ":" ++ str position)%string in
  consequence <- random_choice functional_consequences ;;
  host_gene <- random_choice covid_genes ;;
  p_value <- np_random_uniform 1e-8 5e-5 ;;
  disease <- random_choice related_diseases ;;
  allele_freq <- np_random_uniform 0.01 0.5 ;;
  odds_ratio <- np_random_uniform 1.1 3.5 ;;
  population <- random_choice ["European"; "East Asian"; "Mixed"; "Middle Eastern"] ;;
  size <- random_randint 500 50000 ;;
  ret {| rs_id := rs_id;
         chromosome := chromosome;
         position := position;
         chromosomal_location := Some location;
         functional_consequence := consequence;
         host_gene := host_gene;
         p_value := p_value;
         allele_frequency := allele_freq;
         odds_ratio := odds_ratio;
         related_disease := disease;
         study_population := population;
         sample_size := Some size |}.

(** [for i in range(n_variants): ... data.append({...})] *)
Fixpoint generate_loop (n_variants : nat) (data : list VariantRecord)
  : Rand (list VariantRecord) :=
  match n_variants with
  | O => ret data
  | S k => v <- generate_variant ;; generate_loop k (data ++ [v])
  end.

Definition generate_covid_risk_variants (n_variants : nat) : Rand DataFrame :=
  data <- generate_loop n_variants [] ;;
  ret (DataFrame_of_records row_keys data).

(** The script: both generators are seeded, then the table is generated. *)
Definition seeded (seed : Z) : world :=
  {| py := py_seed seed; np := np_seed seed |}.

Definition covid_variants_df : DataFrame :=
  fst (generate_covid_risk_variants 109 (seeded 42)).

End GeneratorWithSource.
End Generator.

(** ** Dataset generation in [test_tutorial.py] *)

Module Tutorial.

Definition covid_genes : list string :=
  ["ACE2"; "TMPRSS2"; "IFNAR2"; "TYK2"; "OAS1"; "OAS2"; "OAS3"; "IFIH1";
   "IRF7"; "IRF3"; "STAT1"; "STAT2"; "IL6"; "IL1B"; "TNF"; "CCL2";
   "CXCL10"; "IFNG"; "IL10"; "IL4"; "IL13"; "CD14"; "TLR3"; "TLR7"].

(** The keys of the [data] dict, in the order written. *)
Definition data_keys : list string :=
  ["rs_id"; "chromosome"; "position"; "host_gene"; "p_value"; "odds_ratio";
   "allele_frequency"; "functional_consequence"; "related_disease";
   "study_population"].

(** The ten columns of the [data] dict. *)
Record Columns : Type := mkColumns {
  c_rs_id : list string;
  c_chromosome : list string;
  c_position : list Z;
  c_host_gene : list string;
  c_p_value : list R;
  c_odds_ratio : list R;
  c_allele_frequency : list R;
  c_functional_consequence : list string;
  c_related_disease : list string;
  c_study_population : list string
}.

(** [pd.DataFrame(data)] for a dict of [n] columns of equal length: row [i]
    takes entry [i] of each column. *)
Definition DataFrame_of_columns (n : nat) (c : Columns) : DataFrame :=
  {| columns := data_keys;
     rows := map (fun i =>
               {| rs_id := nth i (c_rs_id c) "";
                  chromosome := nth i (c_chromosome c) "";
                  position := nth i (c_position c) 0%Z;
                  chromosomal_location := None;
                  functional_consequence := nth i (c_functional_consequence c) "";
                  host_gene := nth i (c_host_gene c) "";
                  p_value := nth i (c_p_value c) 0%R;
                  allele_frequency := nth i (c_allele_frequency c) 0%R;
                  odds_ratio := nth i (c_odds_ratio c) 0%R;
                  related_disease := nth i (c_related_disease c) "";
                  study_population := nth i (c_study_population c) "";
                  sample_size := None |})
             (seq 0 n) |}.

Section TutorialWithSource.
Context {RS : RandomSource}.

Definition data (n_variants : nat) : Rand Columns :=
  rs <- draws n_variants
          (n <- np_random_randint 1000000 99999999 ;; ret ("rs" ++ str n)%string) ;;
  chr <- draws n_variants
           (n <- np_random_randint 1 23 ;; ret ("chr" ++ str n)%string) ;;
  pos <- draws n_variants (np_random_randint 1000000 200000000) ;;
  gene <- draws n_variants (np_random_choice covid_genes) ;;
  p <- draws n_variants (np_random_uniform 1e-8 5e-5) ;;
  odds <- draws n_variants (np_random_uniform 1.1 3.5) ;;
  freq <- draws n_variants (np_random_uniform 0.01 0.5) ;;
  consequence <- draws n_variants
    (np_random_choice
       ["missense_variant"; "synonymous_variant"; "intron_variant";
        "upstream_gene_variant"; "downstream_gene_variant";
        "3_prime_UTR_variant"]) ;;
  disease <- draws n_variants
    (np_random_choice
       ["Severe COVID-19"; "Respiratory failure"; "ARDS"; "Pneumonia";
        "Thrombosis"; "Cardiovascular disease"; "Immune deficiency"]) ;;
  population <- draws n_variants
    (np_random_choice ["European"; "East Asian"; "Mixed"]) ;;
  ret {| c_rs_id := rs;
         c_chromosome := chr;
         c_position := pos;
         c_host_gene := gene;
         c_p_value := p;
         c_odds_ratio := odds;
         c_allele_frequency := freq;
         c_functional_consequence := consequence;
         c_related_disease := disease;
         c_study_population := population |}.

Definition df (n_variants : nat) : Rand DataFrame :=
  c <- data n_variants ;; ret (DataFrame_of_columns n_variants c).

End TutorialWithSource.
End Tutorial.

(** ** Interaction Graph Builder: [create_test_network] *)

(** [x < y] on floats, as a boolean. *)
Definition Rltb (x y : R) : bool := if Rlt_dec x y then true else false.

Section Network.
Context {RS : RandomSource}.

(** The body of the inner loop, for the pair [(gene1, gene2)]. *)
Definition consider (interaction_probability : R) (pair : string * string)
    (G : Graph) : Rand Graph :=
  let '(gene1, gene2) := pair in
  u <- np_random_random ;;
  if Rltb u interaction_probability
  then confidence <- np_random_uniform 0.4 0.95 ;;
       ret (add_edge gene1 gene2 confidence G)
  else ret G.

(** [for j, gene2 in enumerate(genes[i+1:], i+1)]: [rest] is [genes[i+1:]]. *)
Fixpoint inner_loop (interaction_probability : R) (gene1 : string)
    (rest : list string) (G : Graph) : Rand Graph :=
  match rest with
  | [] => ret G
  | gene2 :: rest' =>
      G' <- consider interaction_probability (gene1, gene2) G ;;
      inner_loop interaction_probability gene1 rest' G'
  end.

(** [for i, gene1 in enumerate(genes)] *)
Fixpoint outer_loop (interaction_probability : R) (genes : list string)
    (G : Graph) : Rand Graph :=
  match genes with
  | [] => ret G
  | gene1 :: rest =>
      G' <- inner_loop interaction_probability gene1 rest G ;;
      outer_loop interaction_probability rest G'
  end.

Definition create_test_network (genes : list string)
    (interaction_probability : R) : Rand Graph :=
  let G := fold_left (fun G gene => add_node gene G) genes empty_graph in
  outer_loop interaction_probability genes G.

(** A sequence of loop bodies run one after the other. *)
Fixpoint for_each {A : Type} (body : A -> Graph -> Rand Graph) (l : list A)
    (G : Graph) : Rand Graph :=
  match l with
  | [] => ret G
  | a :: t => G' <- body a G ;; for_each body t G'
  end.

End Network.

(** The pairs [(genes[i], genes[j])], [i < j], in the order the two loops of
    [create_test_network] meet them. *)
Fixpoint index_pairs (genes : list string) : list (string * string) :=
  match genes with
  | [] => []
  | gene1 :: rest => map (pair gene1) rest ++ index_pairs rest
  end.

(** Two pairs that stand for the same unordered pair. *)
Definition same_pair (p q : string * string) : Prop :=
  p = q \/ p = (snd q, fst q).

(** No unordered pair occurs twice in the list. *)
Inductive distinct_pairs : list (string * string) -> Prop :=
  | distinct_nil : distinct_pairs []
  | distinct_cons (p : string * string) (l : list (string * string)) :
      (forall q, In q l -> ~ same_pair p q) ->
      distinct_pairs l ->
      distinct_pairs (p :: l).

(** The ends of the edges of a graph, as they were first added. *)
Definition edge_pairs (G : Graph) : list (string * string) :=
  map fst (edges G).

(** ** Network metrics: the guarded centrality step *)

(** [nx.degree_centrality] and [nx.betweenness_centrality] belong to
    networkx: each returns a dict from node to score, or raises ([None]). *)
Class Centrality : Type := {
  nx_degree_centrality : Graph -> option (list (string * R));
  nx_betweenness_centrality : Graph -> option (list (string * R))
}.

(** The networkx calls a run makes, in order. *)
Inductive nx_call : Type :=
  | CallDegreeCentrality (G : Graph)
  | CallBetweennessCentrality (G : Graph).

(** A step that logs its networkx calls and returns, or raises ([None]). *)
Definition Logged (A : Type) : Type := (list nx_call * option A)%type.

Definition lret {A : Type} (a : A) : Logged A := ([], Some a).

Definition lbind {A B : Type} (c : Logged A) (k : A -> Logged B) : Logged B :=
  match c with
  | (t, Some a) => let (t', r) := k a in (t ++ t', r)
  | (t, None) => (t, None)
  end.

Notation "x <-! c ;; k" := (lbind c (fun x => k))
  (at level 61, c at next level, right associativity).

(** What step 5 of the tutorial reports. *)
Inductive MetricsReport : Type :=
  | MetricsCalculated (top_hub : string) (top_degree : R)
      (degree_centrality betweenness_centrality : list (string * R))
  | MetricsSkipped.

(** [max(d, key=d.get)]: the first key of largest value; raises on an empty
    dict. *)
Fixpoint max_from (best : string * R) (d : list (string * R)) : string * R :=
  match d with
  | [] => best
  | (k, v) :: t => if Rltb (snd best) v then max_from (k, v) t else max_from best t
  end.

Definition max_key (d : list (string * R)) : option (string * R) :=
  match d with
  | [] => None
  | kv :: t => Some (max_from kv t)
  end.

Section Metrics.
Context {NX : Centrality}.

Definition call_degree_centrality (G : Graph) : Logged (list (string * R)) :=
  ([CallDegreeCentrality G], nx_degree_centrality G).

Definition call_betweenness_centrality (G : Graph) : Logged (list (string * R)) :=
  ([CallBetweennessCentrality G], nx_betweenness_centrality G).

(** Step 5: [if ppi_network.number_of_edges() > 0: ... else: ...] *)
Definition network_metrics (ppi_network : Graph) : Logged MetricsReport :=
  if (0 <? number_of_edges ppi_network)%nat
  then
    degree_centrality <-! call_degree_centrality ppi_network ;;
    betweenness_centrality <-! call_betweenness_centrality ppi_network ;;
    top <-! ([], max_key degree_centrality) ;;
    lret (MetricsCalculated (fst top) (snd top)
            degree_centrality betweenness_centrality)
  else lret MetricsSkipped.

End Metrics.

(** ** The words of the specification *)

(** The true minimum of a series: one of its values, below all of them. *)
Definition is_minimum (m : R) (xs : list R) : Prop :=
  In m xs /\ forall x, In x xs -> (m <= x)%R.

(** The arithmetic mean: the sum of the values over their number. *)
Definition arithmetic_mean (xs : list R) : R :=
  (fold_right Rplus 0 xs / INR (List.length xs))%R.

(** [0.4 * (-log10(min_p_value)) + 0.4 * mean_odds_ratio + 0.2 * variant_count] *)
Definition risk_formula (min_p mean_or : R) (count : nat) : option R :=
  l <-? np_log10 min_p ;;
  Some (0.4 * (- l) + 0.4 * mean_or + 0.2 * INR count)%R.

(** The sum of [variant_count] over the rows of a gene summary. *)
Definition total_variant_count (gs : list (string * GeneSummary)) : nat :=
  list_sum (map (fun kv => variant_count (snd kv)) gs).

(** The intersection of the two sets, as the entry counts it. *)
Definition common_genes (genes unique_genes : list string) : list string :=
  set_inter string_dec (py_set genes) (py_set unique_genes).

(** The entry of a pathway in the words of the specification: the overlap,
    the total, and their ratio, or 0 for an empty gene list. *)
Definition entry_value (genes unique_genes : list string) : PathwayEnrichment :=
  let overlap := List.length (common_genes genes unique_genes) in
  let total := List.length genes in
  {| overlap := overlap;
     total := total;
     enrichment_score :=
       match total with
       | O => 0%Q
       | S _ => (inject_Z (Z.of_nat overlap) / inject_Z (Z.of_nat total))%Q
       end |}.

(** ** Postconditions *)

(** A property of every value a computation can return. *)
Definition post {RS : RandomSource} {A : Type} (c : Rand A) (P : A -> Prop) : Prop :=
  forall w : world, P (fst (c w)).

(** The ranges of the half-open uniform draws of a generated record. *)
Definition in_ranges (r : VariantRecord) : Prop :=
  (1e-8 <= p_value r < 5e-5)%R
  /\ (1.1 <= odds_ratio r < 3.5)%R
  /\ (0.01 <= allele_frequency r < 0.5)%R.

(** ** Fixtures *)

(** A small linear congruential generator behind both modules; a sample is
    one of 0, 1/8, ..., 7/8. *)
Definition lcg (s : Z) : Z := ((1103515245 * s + 12345) mod 2147483648)%Z.

#[local] Instance lcg_source : RandomSource := {|
  py_state := Z;
  np_state := Z;
  py_randbelow := fun n s => ((s mod n)%Z, lcg s);
  np_random_sample := fun s => ((IZR (s mod 8) / 8)%R, lcg s);
  np_randbelow := fun n s => ((s mod n)%Z, lcg s);
  py_seed := fun seed => seed;
  np_seed := fun seed => seed
|}.

(** A generator whose samples are all 0, the low end of [0,1). *)
#[local] Instance zero_source : RandomSource := {|
  py_state := Z;
  np_state := Z;
  py_randbelow := fun n s => (0%Z, lcg s);
  np_random_sample := fun s => (0%R, lcg s);
  np_randbelow := fun n s => (0%Z, lcg s);
  py_seed := fun seed => seed;
  np_seed := fun seed => seed
|}.


(** A variant record with the given gene, p-value, odds ratio and disease. *)
Definition variant (gene : string) (p odds : R) (disease : string) : VariantRecord :=
  {| rs_id := "rs1234567";
     chromosome := "chr1";
     position := 1000000%Z;
     chromosomal_location := None;
     functional_consequence := "missense_variant";
     host_gene := gene;
     p_value := p;
     allele_frequency := 0.25%R;
     odds_ratio := odds;
     related_disease := disease;
     study_population := "Mixed";
     sample_size := None |}.

(** Three records, two genes; the minimum p-value of ACE2 is 2e-6. *)
Definition fixture3 : list VariantRecord :=
  [ variant "ACE2" 3e-5 1.5 "ARDS";
    variant "TYK2" 1e-6 2.5 "Pneumonia";
    variant "ACE2" 2e-6 2.5 "Thrombosis" ].

(** A networkx whose centrality functions raise on every graph. *)
#[local] Instance raising_centrality : Centrality := {|
  nx_degree_centrality := fun _ => None;
  nx_betweenness_centrality := fun _ => None
|}.

(** Degree centrality as networkx defines it, and the betweenness of a graph
    in which no node lies between two others. *)
Definition degree (n : string) (G : Graph) : nat :=
  list_sum (map (fun e => (if String.eqb (fst (fst e)) n then 1 else 0)
                          + (if String.eqb (snd (fst e)) n then 1 else 0))
                (edges G)).

#[local] Instance flat_centrality : Centrality := {|
  nx_degree_centrality := fun G =>
    Some (map (fun n => (n, if (number_of_nodes G <=? 1)%nat then 1%R
                            else (INR (degree n G) * (1 / INR (number_of_nodes G - 1)))%R))
              (nodes G));
  nx_betweenness_centrality := fun G => Some (map (fun n => (n, 0%R)) (nodes G))
|}.

(** Two genes joined by one edge, and the same two genes with no edge. *)
Definition one_edge_graph : Graph :=
  {| nodes := ["ACE2"; "TYK2"]; edges := [("ACE2", "TYK2", 0.5%R)] |}.

Definition no_edge_graph : Graph :=
  {| nodes := ["ACE2"; "TYK2"]; edges := [] |}.

(** ** Contracts and predicates for the rest of the pipeline *)

(** The documented contract of the bounded integer draws: below a positive
    bound [n] the draw is an integer of [0, n). *)
Definition randbelow_in_range (RS : RandomSource) : Prop :=
  (forall n (s : py_state), (0 < n)%Z -> (0 <= fst (py_randbelow n s) < n)%Z)
  /\ (forall n (s : np_state), (0 < n)%Z -> (0 <= fst (np_randbelow n s) < n)%Z).

(** The integer and categorical fields of a record of
    [generate_covid_risk_variants]. *)
Definition generator_fields (r : VariantRecord) : Prop :=
  (exists n, (1000000 <= n <= 99999999)%Z /\ rs_id r = "rs" ++ str n)%string
  /\ In (chromosome r) Generator.chromosomes
  /\ (1000000 <= position r <= 200000000)%Z
  /\ chromosomal_location r
     = Some (chromosome r ++ ":" ++ str (position r))%string
  /\ In (functional_consequence r) Generator.functional_consequences
  /\ In (host_gene r) Generator.covid_genes
  /\ In (related_disease r) Generator.related_diseases
  /\ In (study_population r) ["European"; "East Asian"; "Mixed"; "Middle Eastern"]
  /\ (exists n, (500 <= n <= 50000)%Z /\ sample_size r = Some n).

(** The integer and categorical fields of a row of the tutorial table. *)
Definition tutorial_fields (r : VariantRecord) : Prop :=
  (exists n, (1000000 <= n < 99999999)%Z /\ rs_id r = "rs" ++ str n)%string
  /\ (exists i, (1 <= i < 23)%Z /\ chromosome r = "chr" ++ str i)%string
  /\ (1000000 <= position r < 200000000)%Z
  /\ chromosomal_location r = None
  /\ In (host_gene r) Tutorial.covid_genes
  /\ In (study_population r) ["European"; "East Asian"; "Mixed"]
  /\ sample_size r = None.

(** [DataFrame.sort_values('variant_count', ascending=False)] belongs to
    pandas; its default sort is not stable, so the order of rows with equal
    counts is left to the library. *)
Class FrameSort : Type := {
  sort_values_descending :
    list (string * GeneSummary) -> list (string * GeneSummary)
}.

(** Rows in descending order of [variant_count]. *)
Definition count_descending (a b : string * GeneSummary) : Prop :=
  variant_count (snd b) <= variant_count (snd a).

(** The contract of the sort: the same rows, in descending order. *)
Definition sorts_by_count (FS : FrameSort) : Prop :=
  forall l, Permutation (sort_values_descending l) l
            /\ StronglySorted count_descending (sort_values_descending l).

Section Pipeline.
Context {RS : RandomSource} {FS : FrameSort}.

(** [gene_summary.sort_values('variant_count', ascending=False)] *)
Definition sorted_gene_summary (df : list VariantRecord)
  : list (string * GeneSummary) :=
  sort_values_descending (gene_summary None df).

(** [gene_summary.index[0]], the top gene the tutorial prints; it raises on
    an empty summary. *)
Definition top_gene (df : list VariantRecord) : option (string * nat) :=
  match sorted_gene_summary df with
  | [] => None
  | (gene, s) :: _ => Some (gene, variant_count s)
  end.

(** [gene_summary.head(15).index.tolist()] *)
Definition top_genes_list (df : list VariantRecord) : list string :=
  map fst (firstn 15 (sorted_gene_summary df)).

(** [create_test_network(top_genes_list)], with the default probability. *)
Definition ppi_network (df : list VariantRecord) : Rand Graph :=
  create_test_network (top_genes_list df) 0.3.

End Pipeline.

(** A stable merge sort by descending count, one sort the contract allows. *)
Module CountOrder <: TotalLeBool.
Definition t := (string * GeneSummary)%type.
Definition leb (a b : t) : bool :=
  (variant_count (snd b) <=? variant_count (snd a))%nat.
Lemma leb_total_count : forall a1 a2, leb a1 a2 = true \/ leb a2 a1 = true.
Proof.
  intros a1 a2. unfold leb.
  destruct (Nat.leb_spec (variant_count (snd a2)) (variant_count (snd a1)));
    [now left|right]. apply Nat.leb_le. lia.
Qed.
Definition leb_total := leb_total_count.
End CountOrder.

Module CountSort := Sort CountOrder.

#[local] Instance merge_frame_sort : FrameSort := {|
  sort_values_descending := CountSort.sort
|}.

(** The columns drawn from [numpy.random], and the columns drawn from
    [random]. *)
Definition float_fields (r : VariantRecord) : R * R * R :=
  (p_value r, allele_frequency r, odds_ratio r).

Definition other_fields (r : VariantRecord)
  : string * string * Z * option string * string * string * string * string
    * option Z :=
  (rs_id r, chromosome r, position r, chromosomal_location r,
   functional_consequence r, host_gene r, related_disease r,
   study_population r, sample_size r).

(** A computation whose value and whose effect on the state of
    [numpy.random] depend on the state of [numpy.random] only. *)
Definition numpy_only {RS : RandomSource} {A : Type} (c : Rand A) : Prop :=
  forall w1 w2 : world,
    np w1 = np w2 ->
    fst (c w1) = fst (c w2) /\ np (snd (c w1)) = np (snd (c w2)).

(** ** The requirements list of [setup.py] *)

Module Setup.

(** [str.isspace] of a character; a character of a string is a code point
    below 256. *)
Definition is_space (c : ascii) : bool :=
  let n := nat_of_ascii c in
  ((9 <=? n) && (n <=? 13) || (28 <=? n) && (n <=? 32) || (n =? 133) || (n =? 160))%nat.

Fixpoint lstrip_chars (l : list ascii) : list ascii :=
  match l with
  | [] => []
  | c :: t => if is_space c then lstrip_chars t else l
  end.

Definition rstrip_chars (l : list ascii) : list ascii :=
  rev (lstrip_chars (rev l)).

(** [s.strip()] *)
Definition strip (s : string) : string :=
  string_of_list_ascii (rstrip_chars (lstrip_chars (list_ascii_of_string s))).

(** The condition of the comprehension:
    [line.strip() and not line.startswith("#")]. *)
Definition keeps (line : string) : bool :=
  negb (String.eqb (strip line) "") && negb (String.prefix "#" line).

(** [[line.strip() for line in fh if ...]], [lines] being the lines of
    [requirements.txt], each with its line end. *)
Definition requirements (lines : list string) : list string :=
  map strip (filter keeps lines).

(** A string made of white space only. *)
Definition blank (s : string) : Prop :=
  Forall (fun c => is_space c = true) (list_ascii_of_string s).

End Setup.

(** ** The risk score with its rounding *)

(** A finite float64 is the real number it denotes, and an operation on
    floats returns the float nearest to its exact result, [rnd] of it.
    [log10_fl] is [np.log10] and [mean_fl] is [Series.mean] as the libraries
    compute them on floats. *)
Class FloatArith : Type := {
  rnd : R -> R;
  log10_fl : R -> R;
  mean_fl : list R -> R
}.

(** What the proofs ask of the arithmetic: rounding keeps the order and
    keeps 0, and [np.log10] keeps the order of positive numbers. *)
Definition float_contract (FA : FloatArith) : Prop :=
  (forall x y, (x <= y)%R -> (rnd x <= rnd y)%R)
  /\ rnd 0 = 0%R
  /\ (forall x y, (0 < x)%R -> (x <= y)%R -> (log10_fl x <= log10_fl y)%R).

(** [calculate_risk_score] with the rounding of each operation of line 131;
    the minimum is one of the p-values and the negation is exact. *)
Definition calculate_risk_score_fl {FA : FloatArith}
    (gene_data : list VariantRecord) : option R :=
  m <-? Series.min (map p_value gene_data) ;;
  if Rlt_dec 0 m then
    let p_score := (- log10_fl m)%R in
    let or_score := mean_fl (map odds_ratio gene_data) in
    let variant_score := INR (List.length gene_data) in
    let risk_score :=
      rnd (rnd (rnd (p_score * rnd 0.4) + rnd (or_score * rnd 0.4))
           + rnd (variant_score * rnd 0.2))%R in
    Some risk_score
  else None.

(** Exact arithmetic: nothing is rounded. *)
#[local] Instance exact_arith : FloatArith := {|
  rnd := fun x => x;
  log10_fl := fun x => (ln x / ln 10)%R;
  mean_fl := arithmetic_mean
|}.

#[local] Set Warnings "-inexact-float".

(** Line 131 on binary64 floats, from the three scores. *)
Definition risk_score_f64 (p_score or_score variant_score : float) : float :=
  ((p_score * 0.4) + (or_score * 0.4) + (variant_score * 0.2))%float.

(** ** Runs of the generator, the draws being relations *)

(** The draws of the two modules as relations: from the state [s],
    [random._randbelow(n)] may return [r] and leave the state [s'], and
    likewise a sample of [numpy.random].  A generator seeded from the clock
    or shared with other code allows several outcomes; a pseudo-random
    generator started from a given state allows one. *)
Class DrawRelation : Type := {
  rel_py_state : Type;
  rel_np_state : Type;
  py_draws : Z -> rel_py_state -> Z -> rel_py_state -> Prop;
  np_draws : rel_np_state -> R -> rel_np_state -> Prop
}.

(** From one state, one outcome. *)
Definition deterministic_draws (D : DrawRelation) : Prop :=
  (forall n s r1 s1 r2 s2,
     py_draws n s r1 s1 -> py_draws n s r2 s2 -> r1 = r2 /\ s1 = s2)
  /\ (forall s u1 s1 u2 s2,
        np_draws s u1 s1 -> np_draws s u2 s2 -> u1 = u2 /\ s1 = s2).

Record run_world {D : DrawRelation} : Type := mkRunWorld {
  run_py : rel_py_state;
  run_np : rel_np_state
}.

(** [c w a w']: started in [w], the computation [c] may return [a] and
    leave the generators in [w']. *)
Definition Run {D : DrawRelation} (A : Type) : Type :=
  run_world -> A -> run_world -> Prop.

Definition ret_run {D : DrawRelation} {A : Type} (a : A) : Run A :=
  fun w a' w' => a' = a /\ w' = w.

Definition bind_run {D : DrawRelation} {A B : Type} (c : Run A)
    (k : A -> Run B) : Run B :=
  fun w b w2 => exists a w1, c w a w1 /\ k a w1 b w2.

Notation "x <~ c ;; k" := (bind_run c (fun x => k))
  (at level 61, c at next level, right associativity).

Section Runs.
Context {D : DrawRelation}.

Definition randbelow_run (n : Z) : Run Z :=
  fun w r w' => py_draws n (run_py w) r (run_py w') /\ run_np w' = run_np w.

Definition sample_run : Run R :=
  fun w u w' => np_draws (run_np w) u (run_np w') /\ run_py w' = run_py w.

(** [random.randint(a, b)] *)
Definition randint_run (a b : Z) : Run Z :=
  r <~ randbelow_run (b - a + 1) ;; ret_run (a + r)%Z.

(** [random.choice(seq)] *)
Definition choice_run (seq : list string) : Run string :=
  i <~ randbelow_run (Z.of_nat (List.length seq)) ;;
  ret_run (nth (Z.to_nat i) seq "").

(** [np.random.uniform(low, high)] *)
Definition uniform_run (low high : R) : Run R :=
  u <~ sample_run ;; ret_run (low + (high - low) * u)%R.

(** The body of the loop of [generate_covid_risk_variants]. *)
Definition generate_variant_run : Run VariantRecord :=
  n <~ randint_run 1000000 99999999 ;;
  let rs_id := ("rs" ++ str n)%string in
  chromosome <~ choice_run Generator.chromosomes ;;
  position <~ randint_run 1000000 200000000 ;;
  let location := (chromosome ++ ":" ++ str position)%string in
  consequence <~ choice_run Generator.functional_consequences ;;
  host_gene <~ choice_run Generator.covid_genes ;;
  p_value <~ uniform_run 1e-8 5e-5 ;;
  disease <~ choice_run Generator.related_diseases ;;
  allele_freq <~ uniform_run 0.01 0.5 ;;
  odds_ratio <~ uniform_run 1.1 3.5 ;;
  population <~ choice_run ["European"; "East Asian"; "Mixed"; "Middle Eastern"] ;;
  size <~ randint_run 500 50000 ;;
  ret_run {| rs_id := rs_id;
             chromosome := chromosome;
             position := position;
             chromosomal_location := Some location;
             functional_consequence := consequence;
             host_gene := host_gene;
             p_value := p_value;
             allele_frequency := allele_freq;
             odds_ratio := odds_ratio;
             related_disease := disease;
             study_population := population;
             sample_size := Some size |}.

(** [for i in range(n_variants): ... data.append({...})] *)
Fixpoint generate_loop_run (n_variants : nat) (data : list VariantRecord)
  : Run (list VariantRecord) :=
  match n_variants with
  | O => ret_run data
  | S k => v <~ generate_variant_run ;; generate_loop_run k (data ++ [v])
  end.

Definition generate_run (n_variants : nat) : Run DataFrame :=
  data <~ generate_loop_run n_variants [] ;;
  ret_run (Generator.DataFrame_of_records Generator.row_keys data).

(** A computation with one outcome from each state. *)
Definition one_outcome {A : Type} (c : Run A) : Prop :=
  forall w a1 w1 a2 w2, c w a1 w1 -> c w a2 w2 -> a1 = a2 /\ w1 = w2.

End Runs.

(** The draws of a random source, as relations: the graphs of its
    functions. *)
Definition graph_draws (RS : RandomSource) : DrawRelation := {|
  rel_py_state := py_state;
  rel_np_state := np_state;
  py_draws := fun n s r s' => py_randbelow n s = (r, s');
  np_draws := fun s u s' => np_random_sample s = (u, s')
|}.

Definition to_run_world {RS : RandomSource} (w : world)
  : @run_world (graph_draws RS) :=
  @mkRunWorld (graph_draws RS) (py w) (np w).

(** A computation of the functional model whose runs are runs of the
    relational one. *)
Definition runs_as {RS : RandomSource} {A : Type} (c : Rand A)
    (cr : @Run (graph_draws RS) A) : Prop :=
  forall w, cr (to_run_world w) (fst (c w)) (to_run_world (snd (c w))).

(** A source that is not seeded: a sample may be 0 or 1/2. *)
Definition unseeded_draws : DrawRelation := {|
  rel_py_state := unit;
  rel_np_state := unit;
  py_draws := fun n s r s' => r = 0%Z;
  np_draws := fun s u s' => u = 0%R \/ u = (1 / 2)%R
|}.

(** * Properties *)

(** ** Series *)

Lemma unique_In (l : list string) (x : string) :
  In x (Series.unique l) <-> In x l.
Proof.
  unfold Series.unique.
  rewrite <- in_rev, nodup_In, <- in_rev. reflexivity.
Qed.

Lemma unique_NoDup (l : list string) : NoDup (Series.unique l).
Proof.
  unfold Series.unique. apply NoDup_rev, NoDup_nodup.
Qed.

Lemma fold_Rmin_spec (t : list R) : forall x : R,
  (fold_left Rmin t x = x \/ In (fold_left Rmin t x) t)
  /\ (fold_left Rmin t x <= x)%R
  /\ (forall y, In y t -> (fold_left Rmin t x <= y)%R).
Proof.
  induction t as [|a t IH]; intros x; simpl.
  - split; [now left|]. split; [lra|]. intros y [].
  - destruct (IH (Rmin x a)) as (Hin & Hle & Hall).
    pose proof (Rmin_l x a) as Hl. pose proof (Rmin_r x a) as Hr.
    split; [|split].
    + destruct Hin as [Heq|Hin]; [|now right; right].
      rewrite Heq. unfold Rmin. destruct (Rle_dec x a); [now left|right; now left].
    + lra.
    + intros y [<- | Hy]; [lra|now apply Hall].
Qed.

Lemma series_min_is_minimum (xs : list R) (m : R) :
  Series.min xs = Some m -> is_minimum m xs.
Proof.
  destruct xs as [|x t]; simpl; [discriminate|].
  intros [= <-]. destruct (fold_Rmin_spec t x) as (Hin & Hle & Hall).
  split.
  - destruct Hin as [->|Hin]; [now left|now right].
  - intros y [<- | Hy]; [exact Hle|now apply Hall].
Qed.

Lemma is_minimum_unique (xs : list R) (m m' : R) :
  is_minimum m xs -> is_minimum m' xs -> m = m'.
Proof.
  intros [Hin Hle] [Hin' Hle'].
  apply Rle_antisym; [now apply Hle|now apply Hle'].
Qed.

Lemma fold_left_Rplus (xs : list R) : forall a : R,
  fold_left Rplus xs a = (a + fold_right Rplus 0 xs)%R.
Proof.
  induction xs as [|x t IH]; intros a; simpl; [lra|].
  rewrite IH. lra.
Qed.

Lemma series_mean_is_mean (xs : list R) (a : R) :
  Series.mean xs = Some a -> a = arithmetic_mean xs.
Proof.
  destruct xs as [|x t]; [discriminate|].
  unfold Series.mean, Series.sum, arithmetic_mean. intros [= <-].
  rewrite fold_left_Rplus, Rplus_0_l. reflexivity.
Qed.

Lemma series_min_nonempty (xs : list R) :
  xs <> [] -> exists m, Series.min xs = Some m.
Proof.
  destruct xs as [|x t]; [congruence|]. intros _. simpl. eauto.
Qed.

Lemma series_mean_nonempty (xs : list R) :
  xs <> [] -> exists a, Series.mean xs = Some a.
Proof.
  destruct xs as [|x t]; [congruence|]. intros _. simpl. eauto.
Qed.

(** ** Groups *)

Lemma gene_rows_In (df : list VariantRecord) (gene : string) (r : VariantRecord) :
  In r (gene_rows df gene) <-> In r df /\ host_gene r = gene.
Proof.
  unfold gene_rows. rewrite filter_In, String.eqb_eq. reflexivity.
Qed.

Lemma gene_rows_nonempty (df : list VariantRecord) (gene : string) :
  In gene (map host_gene df) -> gene_rows df gene <> [].
Proof.
  rewrite in_map_iff. intros (r & Hg & Hr) Hnil.
  assert (H : In r (gene_rows df gene)) by (apply gene_rows_In; auto).
  rewrite Hnil in H. destruct H.
Qed.

Lemma group_keys_In (df : list VariantRecord) (k : string) :
  In k (group_keys df) <-> In k (map host_gene df).
Proof.
  unfold group_keys. rewrite <- (unique_In (map host_gene df)). split; intros H.
  - eapply Permutation_in; [symmetry; apply StringSort.Permuted_sort|exact H].
  - eapply Permutation_in; [apply StringSort.Permuted_sort|exact H].
Qed.

Lemma group_keys_NoDup (df : list VariantRecord) : NoDup (group_keys df).
Proof.
  unfold group_keys.
  eapply Permutation_NoDup; [apply StringSort.Permuted_sort|apply unique_NoDup].
Qed.

Lemma agg_group_nonempty (cap : option nat) (g : list VariantRecord) :
  g <> [] -> exists s, agg_group cap g = Some s.
Proof.
  destruct g as [|r t]; [congruence|]. intros _.
  unfold agg_group. simpl. eauto.
Qed.

Lemma agg_group_fields (cap : option nat) (g : list VariantRecord) (s : GeneSummary) :
  agg_group cap g = Some s ->
  variant_count s = List.length g
  /\ Series.min (map p_value g) = Some (min_p_value s)
  /\ Series.mean (map odds_ratio g) = Some (mean_odds_ratio s).
Proof.
  unfold agg_group.
  destruct (Series.min (map p_value g)) as [m|]; [|discriminate].
  destruct (Series.mean (map odds_ratio g)) as [a|]; [|discriminate].
  simpl. intros [= <-]. simpl. rewrite length_map. auto.
Qed.

(** ** Gene Aggregator *)

Lemma list_sum_map_plus {A : Type} (f g : A -> nat) (l : list A) :
  list_sum (map (fun a => f a + g a) l) = list_sum (map f l) + list_sum (map g l).
Proof.
  induction l as [|a t IH]; simpl; [reflexivity|]. rewrite IH. lia.
Qed.

Lemma list_sum_map_zero {A : Type} (l : list A) :
  list_sum (map (fun _ => 0) l) = 0.
Proof.
  induction l as [|a t IH]; simpl; auto.
Qed.

(** Over distinct keys, exactly one of them is the key of a given row. *)
Lemma one_key_matches (x : string) (keys : list string) :
  NoDup keys -> In x keys ->
  list_sum (map (fun k => if String.eqb x k then 1 else 0) keys) = 1.
Proof.
  induction 1 as [|k t Hnotin Hnd IH]; intros Hin; [destruct Hin|].
  simpl. destruct (String.eqb_spec x k) as [->|Hne].
  - assert (Hz : list_sum (map (fun k0 => if String.eqb k k0 then 1 else 0) t) = 0).
    { clear IH Hin Hnd. induction t as [|b t IHt]; simpl; [reflexivity|].
      destruct (String.eqb_spec k b) as [->|_].
      - exfalso. apply Hnotin. now left.
      - apply IHt. intros H. apply Hnotin. now right. }
    rewrite Hz. reflexivity.
  - destruct Hin as [->|Hin]; [congruence|]. rewrite (IH Hin). reflexivity.
Qed.

(** The groups of distinct keys covering the table partition its rows. *)
Lemma groups_partition (keys : list string) (df : list VariantRecord) :
  NoDup keys ->
  (forall r, In r df -> In (host_gene r) keys) ->
  list_sum (map (fun k => List.length (gene_rows df k)) keys) = List.length df.
Proof.
  intros Hnd. induction df as [|r t IH]; intros Hcov.
  - simpl. apply list_sum_map_zero.
  - transitivity
      (list_sum (map (fun k => (if String.eqb (host_gene r) k then 1 else 0)
                               + List.length (gene_rows t k)) keys)).
    + f_equal. apply map_ext. intros k. unfold gene_rows. simpl.
      destruct (String.eqb (host_gene r) k); reflexivity.
    + rewrite list_sum_map_plus, one_key_matches, IH; simpl; auto.
      * intros r' Hr'. apply Hcov. now right.
      * apply Hcov. now left.
Qed.

Lemma summary_row_count (cap : option nat) (df : list VariantRecord) (k : string) :
  total_variant_count (summary_row cap df k) = List.length (gene_rows df k).
Proof.
  unfold summary_row, total_variant_count.
  destruct (agg_group cap (gene_rows df k)) as [s|] eqn:E.
  - apply agg_group_fields in E. destruct E as (Hc & _). simpl. rewrite Hc. lia.
  - destruct (gene_rows df k) as [|r t] eqn:Eg; [reflexivity|].
    destruct (agg_group_nonempty cap (r :: t)) as (s & Hs); congruence.
Qed.

Lemma total_variant_count_app (a b : list (string * GeneSummary)) :
  total_variant_count (a ++ b) = total_variant_count a + total_variant_count b.
Proof.
  unfold total_variant_count. rewrite map_app, list_sum_app. reflexivity.
Qed.

Lemma gene_summary_In (cap : option nat) (df : list VariantRecord)
    (gene : string) (s : GeneSummary) :
  In (gene, s) (gene_summary cap df) <->
  In gene (map host_gene df) /\ agg_group cap (gene_rows df gene) = Some s.
Proof.
  unfold gene_summary. rewrite in_flat_map. split.
  - intros (k & Hk & Hin). unfold summary_row in Hin.
    destruct (agg_group cap (gene_rows df k)) as [s'|] eqn:E; [|destruct Hin].
    destruct Hin as [[= <- <-]|[]]. split; [now apply group_keys_In|exact E].
  - intros (Hin & E). exists gene. split; [now apply group_keys_In|].
    unfold summary_row. rewrite E. now left.
Qed.

Lemma summary_keys (cap : option nat) (df : list VariantRecord) :
  map fst (gene_summary cap df) = group_keys df.
Proof.
  unfold gene_summary.
  assert (H : forall keys, (forall k, In k keys -> In k (map host_gene df)) ->
            map fst (flat_map (summary_row cap df) keys) = keys).
  { induction keys as [|k t IH]; intros Hall; [reflexivity|].
    simpl. rewrite map_app, IH by (intros; apply Hall; now right).
    unfold summary_row.
    destruct (agg_group_nonempty cap (gene_rows df k)) as (s & ->); [|reflexivity].
    apply gene_rows_nonempty, Hall. now left. }
  apply H. intros k. apply group_keys_In.
Qed.

(** C3.  For every non-empty sequence of variant records, the variant counts
    of the gene summary add up to the number of records, the summary has one
    row per distinct gene of the records, and the [min_p_value] of each gene
    is the true minimum of [p_value] over exactly the records of that gene:
    it is the p-value of one of them and no record of the gene has a
    smaller one. *)
Theorem gene_summary_counts_and_minima (cap : option nat) (df : list VariantRecord) :
  df <> [] ->
  total_variant_count (gene_summary cap df) = List.length df
  /\ NoDup (map fst (gene_summary cap df))
  /\ (forall gene, In gene (map fst (gene_summary cap df)) <->
                   exists r, In r df /\ host_gene r = gene)
  /\ (forall gene s, In (gene, s) (gene_summary cap df) ->
        (exists r, In r df /\ host_gene r = gene /\ p_value r = min_p_value s)
        /\ (forall r, In r df -> host_gene r = gene ->
                      (min_p_value s <= p_value r)%R)).
Proof.
  intros _. split; [|split; [|split]].
  - unfold gene_summary.
    rewrite <- (groups_partition (group_keys df) df).
    + induction (group_keys df) as [|k t IH]; [reflexivity|].
      simpl. rewrite total_variant_count_app, summary_row_count, IH. reflexivity.
    + apply group_keys_NoDup.
    + intros r Hr. apply group_keys_In, in_map, Hr.
  - rewrite summary_keys. apply group_keys_NoDup.
  - intros gene. rewrite summary_keys, group_keys_In, in_map_iff.
    split; intros (r & H1 & H2); exists r; auto.
  - intros gene s Hin. apply gene_summary_In in Hin. destruct Hin as (_ & E).
    apply agg_group_fields in E. destruct E as (_ & Hmin & _).
    apply series_min_is_minimum in Hmin. destruct Hmin as (Hin & Hle).
    split.
    + apply in_map_iff in Hin. destruct Hin as (r & Hp & Hr).
      apply gene_rows_In in Hr. destruct Hr as (Hr & Hg). exists r. auto.
    + intros r Hr Hg. apply Hle, in_map, gene_rows_In. auto.
Qed.

Lemma gene_summary_counts_and_minima_witness :
  total_variant_count (gene_summary None fixture3) = 3
  /\ forall s, In ("ACE2", s) (gene_summary None fixture3) ->
               min_p_value s = 2e-6%R.
Proof.
  destruct (gene_summary_counts_and_minima None fixture3) as (Hsum & _ & _ & Hmin).
  - discriminate.
  - split; [exact Hsum|].
    intros s Hs. destruct (Hmin _ _ Hs) as ((r & Hr & Hg & Hp) & Hle).
    assert (H2 : (min_p_value s <= 2e-6)%R).
    { apply (Hle (variant "ACE2" 2e-6 2.5 "Thrombosis")); simpl; auto. }
    simpl in Hr. destruct Hr as [<-|[<-|[<-|[]]]]; simpl in *;
      try discriminate; lra.
Defined.

(** ** Risk Score Calculator *)

Lemma np_log10_pos (x : R) : (0 < x)%R -> np_log10 x = Some (ln x / ln 10)%R.
Proof.
  intros H. unfold np_log10. destruct (Rlt_dec 0 x); [reflexivity|contradiction].
Qed.

Lemma ln_10_pos : (0 < ln 10)%R.
Proof.
  rewrite <- ln_1. apply ln_increasing; lra.
Qed.

Lemma lookup_map_key {A : Type} (f : string -> A) (keys : list string) (k : string) :
  In k keys -> lookup k (map (fun g => (g, f g)) keys) = Some (f k).
Proof.
  induction keys as [|a t IH]; intros Hin; [destruct Hin|].
  simpl. destruct (String.eqb_spec a k) as [->|Hne]; [reflexivity|].
  destruct Hin as [->|Hin]; [congruence|auto].
Qed.

(** The score in terms of the aggregates of the same rows. *)
Lemma calculate_risk_score_aggregates (gene_data : list VariantRecord) (m a : R) :
  Series.min (map p_value gene_data) = Some m ->
  Series.mean (map odds_ratio gene_data) = Some a ->
  calculate_risk_score gene_data = risk_formula m a (List.length gene_data).
Proof.
  intros Hm Ha. unfold calculate_risk_score, risk_formula.
  rewrite Hm, Ha. simpl.
  destruct (np_log10 m) as [l|]; simpl; [|reflexivity].
  f_equal. ring.
Qed.

(** C1.  For every gene with at least one variant record, the score the
    calculator returns for the records of the gene, which is the score
    stored for the gene, is 0.4 * (-log10 m) + 0.4 * (the arithmetic mean of
    their odds ratios) + 0.2 * (their number), where m is the minimum of
    their p-values; these three aggregates are the fields of the row of the
    gene in the gene summary. *)
Theorem risk_score_formula (df : list VariantRecord) (gene : string) :
  (exists r, In r df /\ host_gene r = gene) ->
  let gene_data := gene_rows df gene in
  exists m,
    is_minimum m (map p_value gene_data)
    /\ calculate_risk_score gene_data
       = risk_formula m (arithmetic_mean (map odds_ratio gene_data))
                      (List.length gene_data)
    /\ lookup gene (gene_risk_scores df) = Some (calculate_risk_score gene_data)
    /\ (forall cap s, In (gene, s) (gene_summary cap df) ->
          calculate_risk_score gene_data
          = risk_formula (min_p_value s) (mean_odds_ratio s) (variant_count s)).
Proof.
  intros (r & Hr & Hg) gene_data.
  assert (Hin : In gene (map host_gene df)) by (rewrite <- Hg; now apply in_map).
  assert (Hne : gene_data <> []) by now apply gene_rows_nonempty.
  destruct (series_min_nonempty (map p_value gene_data)) as (m & Hm).
  { destruct gene_data; [congruence|discriminate]. }
  destruct (series_mean_nonempty (map odds_ratio gene_data)) as (a & Ha).
  { destruct gene_data; [congruence|discriminate]. }
  exists m. split; [|split; [|split]].
  - now apply series_min_is_minimum.
  - rewrite <- (series_mean_is_mean _ _ Ha).
    now apply calculate_risk_score_aggregates.
  - unfold gene_risk_scores.
    apply (lookup_map_key (fun g => calculate_risk_score (gene_rows df g))).
    now apply unique_In.
  - intros cap s Hs. apply gene_summary_In in Hs. destruct Hs as (_ & E).
    apply agg_group_fields in E. destruct E as (-> & Hm' & Ha').
    now apply calculate_risk_score_aggregates.
Qed.

Lemma risk_score_formula_witness :
  calculate_risk_score (gene_rows fixture3 "ACE2")
  = Some (0.4 * (- (ln 2e-6 / ln 10)) + 0.4 * 2 + 0.2 * 2)%R.
Proof.
  destruct (risk_score_formula fixture3 "ACE2") as (m & Hm & Hs & _).
  - exists (variant "ACE2" 3e-5 1.5 "ARDS"). simpl. auto.
  - assert (E : m = 2e-6%R).
    { apply (is_minimum_unique _ _ _ Hm). split.
      - right. left. reflexivity.
      - intros x [<-|[<-|[]]]; simpl; lra. }
    rewrite Hs, E. unfold risk_formula. rewrite np_log10_pos by lra.
    simpl. f_equal. unfold arithmetic_mean. simpl. lra.
Defined.

Lemma rnd_nonneg {FA : FloatArith} (x : R) :
  float_contract FA -> (0 <= x)%R -> (0 <= rnd x)%R.
Proof.
  intros (Hmono & Hzero & _) Hx. rewrite <- Hzero. now apply Hmono.
Qed.

(** Line 131 keeps the order of each of its three scores. *)
Lemma risk_line_monotone {FA : FloatArith} (p1 p2 a1 a2 n1 n2 : R) :
  float_contract FA ->
  (p1 <= p2)%R -> (a1 <= a2)%R -> (n1 <= n2)%R ->
  (rnd (rnd (rnd (p1 * rnd 0.4) + rnd (a1 * rnd 0.4)) + rnd (n1 * rnd 0.2))
   <= rnd (rnd (rnd (p2 * rnd 0.4) + rnd (a2 * rnd 0.4)) + rnd (n2 * rnd 0.2)))%R.
Proof.
  intros HF Hp Ha Hn. pose proof HF as (Hmono & _ & _).
  assert (H4 : (0 <= rnd 0.4)%R) by (apply (rnd_nonneg _ HF); lra).
  assert (H2 : (0 <= rnd 0.2)%R) by (apply (rnd_nonneg _ HF); lra).
  assert (Hp' : (rnd (p1 * rnd 0.4) <= rnd (p2 * rnd 0.4))%R)
    by (apply Hmono, Rmult_le_compat_r; assumption).
  assert (Ha' : (rnd (a1 * rnd 0.4) <= rnd (a2 * rnd 0.4))%R)
    by (apply Hmono, Rmult_le_compat_r; assumption).
  assert (Hn' : (rnd (n1 * rnd 0.2) <= rnd (n2 * rnd 0.2))%R)
    by (apply Hmono, Rmult_le_compat_r; assumption).
  apply Hmono. apply Rplus_le_compat; [|exact Hn'].
  apply Hmono. now apply Rplus_le_compat.
Qed.

Lemma calculate_risk_score_fl_value {FA : FloatArith}
    (gene_data : list VariantRecord) (m : R) :
  Series.min (map p_value gene_data) = Some m -> (0 < m)%R ->
  calculate_risk_score_fl gene_data
  = Some (rnd (rnd (rnd (- log10_fl m * rnd 0.4)
                    + rnd (mean_fl (map odds_ratio gene_data) * rnd 0.4))
               + rnd (INR (List.length gene_data) * rnd 0.2)))%R.
Proof.
  intros Hm Hpos. unfold calculate_risk_score_fl. rewrite Hm. simpl.
  destruct (Rlt_dec 0 m); [reflexivity|contradiction].
Qed.

(** C5.  With the rounding of float64, take two genes whose records have
    positive p-values, with the same variant count.  If their mean odds
    ratios are equal, the gene with the smaller minimum p-value has a risk
    score at least as large; if their minimum p-values are equal, the gene
    with the larger mean odds ratio has a risk score at least as large. *)
Theorem risk_score_monotone_rounded (FA : FloatArith)
    (g1 g2 : list VariantRecord) (m1 m2 : R) :
  float_contract FA ->
  Series.min (map p_value g1) = Some m1 ->
  Series.min (map p_value g2) = Some m2 ->
  (0 < m1)%R -> (0 < m2)%R ->
  List.length g1 = List.length g2 ->
  exists r1 r2,
    calculate_risk_score_fl g1 = Some r1
    /\ calculate_risk_score_fl g2 = Some r2
    /\ (mean_fl (map odds_ratio g1) = mean_fl (map odds_ratio g2) ->
        (m1 < m2)%R -> (r2 <= r1)%R)
    /\ (m1 = m2 ->
        (mean_fl (map odds_ratio g1) < mean_fl (map odds_ratio g2))%R ->
        (r1 <= r2)%R).
Proof.
  intros HF Hm1 Hm2 Hp1 Hp2 Hlen.
  rewrite (calculate_risk_score_fl_value g1 m1 Hm1 Hp1).
  rewrite (calculate_risk_score_fl_value g2 m2 Hm2 Hp2).
  do 2 eexists. split; [reflexivity|]. split; [reflexivity|].
  rewrite Hlen. pose proof HF as (_ & _ & Hlog). split.
  - intros -> Hlt. apply (risk_line_monotone _ _ _ _ _ _ HF); try lra.
    assert (log10_fl m1 <= log10_fl m2)%R by (apply Hlog; lra). lra.
  - intros -> Hlt. apply (risk_line_monotone _ _ _ _ _ _ HF); lra.
Qed.

Lemma exact_contract : float_contract exact_arith.
Proof.
  split; [|split]; simpl.
  - intros x y H. exact H.
  - reflexivity.
  - intros x y Hx [Hlt|<-]; [|lra].
    pose proof ln_10_pos as H10. left.
    unfold Rdiv. apply Rmult_lt_compat_r; [now apply Rinv_0_lt_compat|].
    now apply ln_increasing.
Qed.

Lemma risk_score_monotone_rounded_witness :
  exists r1 r2,
    @calculate_risk_score_fl exact_arith [variant "ACE2" 1e-6 2 "ARDS"] = Some r1
    /\ @calculate_risk_score_fl exact_arith [variant "TYK2" 1e-5 2 "ARDS"] = Some r2
    /\ (r2 <= r1)%R.
Proof.
  destruct (risk_score_monotone_rounded exact_arith
              [variant "ACE2" 1e-6 2 "ARDS"] [variant "TYK2" 1e-5 2 "ARDS"]
              1e-6 1e-5 exact_contract eq_refl eq_refl)
    as (r1 & r2 & H1 & H2 & Hp & _).
  - lra.
  - lra.
  - reflexivity.
  - exists r1, r2. split; [exact H1|]. split; [exact H2|].
    apply Hp; [reflexivity|lra].
Defined.

(** Strictness is lost to rounding.  Two genes of one record each, with the
    same p-value 1e-6, whose [-log10] is 6.0, and odds ratios 1.5 and the
    next float above it, 1.5000000000000002: the one with the strictly larger
    odds ratio has the same risk score, 3.2000000000000006, not a larger
    one. *)
Lemma risk_score_float64_collision :
  PrimFloat.ltb 1.5 1.5000000000000002 = true
  /\ risk_score_f64 6 1.5 1 = 3.2000000000000006%float
  /\ risk_score_f64 6 1.5000000000000002 1 = 3.2000000000000006%float
  /\ PrimFloat.ltb (risk_score_f64 6 1.5 1)
                   (risk_score_f64 6 1.5000000000000002 1) = false.
Proof. repeat split. Qed.

(** ** Pathway Enrichment Scorer *)

Lemma py_set_In (l : list string) (x : string) : In x (py_set l) <-> In x l.
Proof. apply nodup_In. Qed.

Lemma py_set_NoDup (l : list string) : NoDup (py_set l).
Proof. apply NoDup_nodup. Qed.

Lemma py_set_length (l : list string) : List.length (py_set l) <= List.length l.
Proof.
  apply NoDup_incl_length; [apply py_set_NoDup|].
  intros x. apply py_set_In.
Qed.

Lemma py_set_NoDup_id (l : list string) : NoDup l -> py_set l = l.
Proof. apply nodup_fixed_point. Qed.

(** A list that [nodup] leaves alone has no duplicate: a check by
    computation. *)
Lemma NoDup_by_nodup (l : list string) : nodup string_dec l = l -> NoDup l.
Proof. intros <-. apply NoDup_nodup. Qed.

Lemma pathway_names_distinct : NoDup (map fst pathway_categories).
Proof. apply NoDup_by_nodup. reflexivity. Qed.

Lemma pathway_genes_distinct (pathway : string) (genes : list string) :
  In (pathway, genes) pathway_categories -> NoDup genes /\ genes <> [].
Proof.
  simpl. intros [E|[E|[E|[E|[]]]]]; inversion E; subst;
    (split; [apply NoDup_by_nodup; reflexivity|discriminate]).
Qed.

Lemma common_genes_In (genes unique_genes : list string) (g : string) :
  In g (common_genes genes unique_genes) <-> In g genes /\ In g unique_genes.
Proof.
  unfold common_genes. rewrite set_inter_iff, !py_set_In. reflexivity.
Qed.

Lemma common_genes_NoDup (genes unique_genes : list string) :
  NoDup (common_genes genes unique_genes).
Proof.
  apply set_inter_nodup; apply py_set_NoDup.
Qed.

(** The loop body never raises: the guard keeps the division away from an
    empty gene list, and the entry it stores is the one of the
    specification. *)
Lemma enrichment_entry_returns (genes unique_genes : list string) :
  enrichment_entry genes unique_genes = Some (entry_value genes unique_genes).
Proof.
  unfold enrichment_entry, entry_value, common_genes, truediv.
  destruct (List.length genes) as [|n]; reflexivity.
Qed.

Lemma enrichment_loop_returns (unique_genes : list string)
    (categories : list (string * list string)) :
  enrichment_loop unique_genes categories
  = Some (map (fun kv => (fst kv, entry_value (snd kv) unique_genes)) categories).
Proof.
  induction categories as [|[pathway genes] rest IH]; [reflexivity|].
  cbn [enrichment_loop]. rewrite enrichment_entry_returns, IH. reflexivity.
Qed.

Lemma overlap_le_set (genes unique_genes : list string) :
  overlap (entry_value genes unique_genes) <= List.length (py_set genes).
Proof.
  simpl. apply NoDup_incl_length.
  - apply (common_genes_NoDup genes unique_genes).
  - intros g Hg. apply set_inter_elim1 in Hg. exact Hg.
Qed.

Lemma enrichment_score_nonempty (genes unique_genes : list string) :
  genes <> [] ->
  (enrichment_score (entry_value genes unique_genes)
   == inject_Z (Z.of_nat (List.length (common_genes genes unique_genes)))
      / inject_Z (Z.of_nat (List.length genes)))%Q.
Proof.
  intros Hne. unfold entry_value. simpl.
  destruct genes as [|g t]; [congruence|]. reflexivity.
Qed.

Lemma lookup_entry_value (categories : list (string * list string))
    (unique_genes : list string) (pathway : string) (genes : list string) :
  NoDup (map fst categories) ->
  In (pathway, genes) categories ->
  lookup pathway
         (map (fun kv => (fst kv, entry_value (snd kv) unique_genes)) categories)
  = Some (entry_value genes unique_genes).
Proof.
  induction categories as [|[k v] t IH]; intros Hnd Hin; [destruct Hin|].
  simpl in *. inversion Hnd as [|? ? Hnotin Hnd']; subst.
  destruct (String.eqb_spec k pathway) as [->|Hne].
  - destruct Hin as [[= ->]|Hin]; [reflexivity|].
    exfalso. apply Hnotin. apply (in_map fst) in Hin. exact Hin.
  - destruct Hin as [[= -> ->]|Hin]; [congruence|auto].
Qed.

(** C2.  For every dataset the scorer returns the dict of entries without
    raising, and for every pathway of the fixed taxonomy the entry has as
    overlap the number of genes that are both in the gene set of the pathway
    and among the host genes of the dataset, and as enrichment score that
    number divided by the size of the gene set.  For a taxonomy with a
    pathway whose gene set is empty, the scorer returns too, no division by
    zero is attempted, and the score of that pathway is 0. *)
Theorem enrichment_score_is_overlap_ratio :
  (forall (df : list VariantRecord) (pathway : string) (genes : list string),
     In (pathway, genes) pathway_categories ->
     exists entries pe common,
       pathway_enrichment pathway_categories df = Some entries
       /\ lookup pathway entries = Some pe
       /\ NoDup common
       /\ (forall g, In g common <->
                     In g genes /\ exists r, In r df /\ host_gene r = g)
       /\ overlap pe = List.length common
       /\ (enrichment_score pe
           == inject_Z (Z.of_nat (List.length common))
              / inject_Z (Z.of_nat (List.length (py_set genes))))%Q)
  /\ (forall (categories : list (string * list string))
        (df : list VariantRecord) (pathway : string),
        NoDup (map fst categories) ->
        In (pathway, []) categories ->
        exists entries pe,
          pathway_enrichment categories df = Some entries
          /\ lookup pathway entries = Some pe
          /\ overlap pe = 0
          /\ (enrichment_score pe == 0)%Q)
  /\ (forall unique_genes : list string,
        exists pe, enrichment_entry [] unique_genes = Some pe
                   /\ (enrichment_score pe == 0)%Q).
Proof.
  split; [|split].
  - intros df pathway genes Hin.
    destruct (pathway_genes_distinct _ _ Hin) as (Hnd & Hne).
    unfold pathway_enrichment. rewrite enrichment_loop_returns.
    eexists. exists (entry_value genes (Series.unique (map host_gene df))).
    exists (common_genes genes (Series.unique (map host_gene df))).
    split; [reflexivity|].
    split; [apply lookup_entry_value; [apply pathway_names_distinct|exact Hin]|].
    split; [apply common_genes_NoDup|]. split; [|split].
    + intros g. rewrite common_genes_In, unique_In, in_map_iff.
      split; intros (Hg & r & H1 & H2); (split; [exact Hg|exists r; auto]).
    + reflexivity.
    + rewrite (py_set_NoDup_id _ Hnd). now apply enrichment_score_nonempty.
  - intros categories df pathway Hnd Hin.
    unfold pathway_enrichment. rewrite enrichment_loop_returns.
    eexists. exists (entry_value [] (Series.unique (map host_gene df))).
    split; [reflexivity|].
    split; [now apply lookup_entry_value|]. split; reflexivity.
  - intros unique_genes. rewrite enrichment_entry_returns.
    eexists. split; reflexivity.
Qed.

Lemma enrichment_score_is_overlap_ratio_witness :
  (exists entries pe common,
     pathway_enrichment pathway_categories fixture3 = Some entries
     /\ lookup "Viral Entry" entries = Some pe
     /\ NoDup common
     /\ (forall g, In g common <->
                   In g ["ACE2"; "TMPRSS2"]
                   /\ exists r, In r fixture3 /\ host_gene r = g)
     /\ overlap pe = List.length common
     /\ (enrichment_score pe
         == inject_Z (Z.of_nat (List.length common))
            / inject_Z (Z.of_nat (List.length (py_set ["ACE2"; "TMPRSS2"]))))%Q)
  /\ (exists entries pe,
        pathway_enrichment [("Viral Entry", ["ACE2"; "TMPRSS2"]); ("Empty", [])]
                           fixture3 = Some entries
        /\ lookup "Empty" entries = Some pe
        /\ overlap pe = 0
        /\ (enrichment_score pe == 0)%Q).
Proof.
  split.
  - apply (proj1 enrichment_score_is_overlap_ratio fixture3 "Viral Entry").
    simpl. auto.
  - apply (proj1 (proj2 enrichment_score_is_overlap_ratio)).
    + apply NoDup_by_nodup. reflexivity.
    + simpl. auto.
Defined.

Example viral_entry_half :
  enrichment_entry ["ACE2"; "TMPRSS2"] (Series.unique (map host_gene fixture3))
  = Some {| overlap := 1; total := 2; enrichment_score := (1 # 1) / (2 # 1) |}.
Proof. reflexivity. Qed.

Example empty_gene_set_scores_zero :
  enrichment_entry [] ["ACE2"]
  = Some {| overlap := 0; total := 0; enrichment_score := 0 |}
  /\ truediv 0 0 = None.
Proof. split; reflexivity. Qed.

(** C10.  For every pathway gene list and every dataset gene list, the
    scorer returns an entry whose overlap is at most the size of the gene
    set of the pathway, which is at most the total it divides by, so the
    enrichment score lies between 0 and 1, both included. *)
Theorem enrichment_score_in_unit_interval (genes unique_genes : list string) :
  exists pe,
    enrichment_entry genes unique_genes = Some pe
    /\ overlap pe <= List.length (py_set genes)
    /\ List.length (py_set genes) <= total pe
    /\ (0 <= enrichment_score pe)%Q
    /\ (enrichment_score pe <= 1)%Q.
Proof.
  exists (entry_value genes unique_genes).
  split; [apply enrichment_entry_returns|].
  pose proof (overlap_le_set genes unique_genes) as Ho.
  pose proof (py_set_length genes) as Ht.
  split; [exact Ho|]. split; [exact Ht|].
  unfold entry_value in *. simpl in *.
  set (o := List.length (common_genes genes unique_genes)) in *.
  set (t := List.length genes) in *.
  destruct t as [|n] eqn:Et; [split; discriminate|].
  assert (Hq : (0 < inject_Z (Z.of_nat (S n)))%Q).
  { change 0%Q with (inject_Z 0). rewrite <- Zlt_Qlt. lia. }
  split.
  - apply Qle_shift_div_l; [exact Hq|]. rewrite Qmult_0_l.
    change 0%Q with (inject_Z 0). rewrite <- Zle_Qle. lia.
  - apply Qle_shift_div_r; [exact Hq|]. rewrite Qmult_1_l.
    rewrite <- Zle_Qle. lia.
Qed.

(** ** Computations over the generators *)

Section RandProps.
Context {RS : RandomSource}.

Lemma post_ret {A : Type} (a : A) (P : A -> Prop) : P a -> post (ret a) P.
Proof. intros H w. exact H. Qed.

Lemma post_bind {A B : Type} (c : Rand A) (k : A -> Rand B)
    (P : A -> Prop) (Q : B -> Prop) :
  post c P -> (forall a, P a -> post (k a) Q) -> post (x <- c ;; k x) Q.
Proof.
  intros Hc Hk w. unfold bind. specialize (Hc w).
  destruct (c w) as [a w']. simpl in Hc. apply (Hk a Hc w').
Qed.

Lemma post_any {A : Type} (c : Rand A) : post c (fun _ => True).
Proof. intros w. exact I. Qed.

Lemma post_lift_np {A : Type} (f : np_state -> A * np_state) (P : A -> Prop) :
  (forall s, P (fst (f s))) -> post (lift_np f) P.
Proof.
  intros H w. unfold lift_np. specialize (H (np w)).
  destruct (f (np w)) as [a s]. exact H.
Qed.

Lemma post_draws {A : Type} (c : Rand A) (P : A -> Prop) (n : nat) :
  post c P -> post (draws n c) (fun l => List.length l = n /\ Forall P l).
Proof.
  intros Hc. induction n as [|n IH]; simpl.
  - apply post_ret. auto.
  - eapply post_bind; [exact Hc|]. intros x Hx.
    eapply post_bind; [exact IH|]. intros xs (Hlen & Hall).
    apply post_ret. simpl. auto.
Qed.

Section DrawsInUnit.
Hypothesis samples : sample_in_unit RS.

Lemma random_in_unit : post np_random_random (fun u => 0 <= u < 1)%R.
Proof. apply post_lift_np. exact samples. Qed.

(** [np.random.uniform(low, high)] lies in the half-open [low, high). *)
Lemma uniform_in_range (low high : R) :
  (low < high)%R ->
  post (np_random_uniform low high) (fun x => low <= x < high)%R.
Proof.
  intros Hlt. unfold np_random_uniform.
  eapply post_bind; [apply random_in_unit|]. intros u Hu.
  apply post_ret. nra.
Qed.

Lemma generate_variant_in_ranges : post Generator.generate_variant in_ranges.
Proof.
  unfold Generator.generate_variant.
  eapply post_bind; [apply post_any|]. intros n _.
  eapply post_bind; [apply post_any|]. intros chr _.
  eapply post_bind; [apply post_any|]. intros pos _.
  eapply post_bind; [apply post_any|]. intros cons _.
  eapply post_bind; [apply post_any|]. intros gene _.
  eapply post_bind; [apply (uniform_in_range 1e-8 5e-5); lra|]. intros p Hp.
  eapply post_bind; [apply post_any|]. intros dis _.
  eapply post_bind; [apply (uniform_in_range 0.01 0.5); lra|]. intros af Haf.
  eapply post_bind; [apply (uniform_in_range 1.1 3.5); lra|]. intros o Ho.
  eapply post_bind; [apply post_any|]. intros pop _.
  eapply post_bind; [apply post_any|]. intros size _.
  apply post_ret. unfold in_ranges. simpl. auto.
Qed.

End DrawsInUnit.

(** The loop appends exactly [n] records to [data], each one a value of
    [generate_variant]. *)
Lemma generate_loop_post (P : VariantRecord -> Prop) :
  post Generator.generate_variant P ->
  forall (n : nat) (data : list VariantRecord),
    Forall P data ->
    post (Generator.generate_loop n data)
         (fun l => List.length l = List.length data + n /\ Forall P l).
Proof.
  intros Hv. induction n as [|n IH]; intros data Hdata; simpl.
  - apply post_ret. split; [lia|exact Hdata].
  - eapply post_bind; [exact Hv|]. intros v Pv.
    intros w. destruct (IH (data ++ [v])) with (w := w) as (Hlen & Hall).
    + apply Forall_app. auto.
    + split; [|exact Hall]. rewrite Hlen, length_app. simpl. lia.
Qed.

Lemma generate_post (P : VariantRecord -> Prop) (n : nat) :
  post Generator.generate_variant P ->
  post (Generator.generate_covid_risk_variants n)
       (fun df => List.length (rows df) = n
                  /\ (n <> 0 -> columns df = Generator.row_keys)
                  /\ (n = 0 -> columns df = [])
                  /\ Forall P (rows df)).
Proof.
  intros Hv. unfold Generator.generate_covid_risk_variants.
  eapply post_bind; [apply (generate_loop_post P Hv n []); constructor|].
  intros data (Hlen & Hall). apply post_ret. simpl in *.
  split; [exact Hlen|]. split; [|split; [|exact Hall]].
  - intros Hn. destruct data; [simpl in Hlen; congruence|reflexivity].
  - intros ->. destruct data; [reflexivity|discriminate].
Qed.

End RandProps.

(** ** Dataset Generator *)

Ltac skip_draw := eapply post_bind; [apply post_any | intros ? _].

Section TutorialProps.
Context {RS : RandomSource}.

Lemma tutorial_df_post (n : nat) :
  sample_in_unit RS ->
  post (Tutorial.df n)
       (fun df => List.length (rows df) = n
                  /\ columns df = Tutorial.data_keys
                  /\ Forall in_ranges (rows df)).
Proof.
  intros samples. unfold Tutorial.df, Tutorial.data.
  eapply post_bind; [|intros c Hc; apply post_ret; exact Hc].
  do 4 skip_draw.
  eapply post_bind;
    [apply post_draws, (uniform_in_range samples 1e-8 5e-5); lra|].
  intros p (Hpl & Hp).
  eapply post_bind;
    [apply post_draws, (uniform_in_range samples 1.1 3.5); lra|].
  intros o (Hol & Ho).
  eapply post_bind;
    [apply post_draws, (uniform_in_range samples 0.01 0.5); lra|].
  intros f (Hfl & Hf).
  do 3 skip_draw.
  apply post_ret. unfold Tutorial.DataFrame_of_columns. simpl.
  split; [now rewrite length_map, length_seq|]. split; [reflexivity|].
  apply Forall_forall. intros r Hr. apply in_map_iff in Hr.
  destruct Hr as (i & <- & Hi). apply in_seq in Hi.
  unfold in_ranges. simpl.
  split; [|split].
  - apply (proj1 (Forall_nth _ p) Hp). lia.
  - apply (proj1 (Forall_nth _ o) Ho). lia.
  - apply (proj1 (Forall_nth _ f) Hf). lia.
Qed.

End TutorialProps.

(** C6.  For every target count N, each of the two generators produces a
    table with exactly N rows in which every [p_value] lies in the half-open
    interval [1e-8, 5e-5) and every [odds_ratio] in [1.1, 3.5), a sample of
    the random source being a number of [0, 1).  The table of
    [generate_covid_risk_variants] has the twelve columns of its records
    when N is not 0; the table of the tutorial has its ten columns. *)
Theorem generated_table_shape_and_ranges (RS : RandomSource)
    (n : nat) (w : world) :
  sample_in_unit RS ->
  (let df := fst (Generator.generate_covid_risk_variants n w) in
   List.length (rows df) = n
   /\ (n <> 0 -> columns df = Generator.row_keys)
   /\ (forall r, In r (rows df) ->
         (1e-8 <= p_value r < 5e-5)%R /\ (1.1 <= odds_ratio r < 3.5)%R))
  /\ (let df := fst (Tutorial.df n w) in
      List.length (rows df) = n
      /\ columns df = Tutorial.data_keys
      /\ (forall r, In r (rows df) ->
            (1e-8 <= p_value r < 5e-5)%R /\ (1.1 <= odds_ratio r < 3.5)%R)).
Proof.
  intros samples. split.
  - destruct (generate_post in_ranges n (generate_variant_in_ranges samples) w)
      as (Hlen & Hcols & _ & Hall).
    split; [exact Hlen|]. split; [exact Hcols|].
    intros r Hr. rewrite Forall_forall in Hall.
    destruct (Hall r Hr) as (Hp & Ho & _). auto.
  - destruct (tutorial_df_post n samples w) as (Hlen & Hcols & Hall).
    split; [exact Hlen|]. split; [exact Hcols|].
    intros r Hr. rewrite Forall_forall in Hall.
    destruct (Hall r Hr) as (Hp & Ho & _). auto.
Qed.

Lemma lcg_samples_in_unit : sample_in_unit lcg_source.
Proof.
  intros s. simpl.
  pose proof (Z.mod_pos_bound s 8 eq_refl) as (Hlo & Hhi).
  apply IZR_le in Hlo. apply IZR_lt in Hhi. lra.
Qed.

Lemma zero_samples_in_unit : sample_in_unit zero_source.
Proof. intros s. simpl. lra. Qed.

Lemma generated_table_shape_and_ranges_witness :
  let df := fst (@Generator.generate_covid_risk_variants lcg_source 3
                   (Generator.seeded 42)) in
  List.length (rows df) = 3
  /\ (3 <> 0 -> columns df = Generator.row_keys)
  /\ (forall r, In r (rows df) ->
        (1e-8 <= p_value r < 5e-5)%R /\ (1.1 <= odds_ratio r < 3.5)%R).
Proof.
  exact (proj1 (generated_table_shape_and_ranges lcg_source 3
                  (Generator.seeded 42) lcg_samples_in_unit)).
Defined.

(** With a sample equal to 0, every uniform draw is its low end. *)
Lemma zero_uniform (low high : R) :
  post (RS := zero_source) (np_random_uniform low high) (fun x => x = low).
Proof.
  unfold np_random_uniform.
  eapply post_bind.
  - apply (post_lift_np (RS := zero_source) _ (fun u => u = 0%R)).
    intros s. reflexivity.
  - intros u ->. apply post_ret. ring.
Qed.

Lemma zero_generate_variant :
  post (RS := zero_source) Generator.generate_variant
       (fun r => p_value r = 1e-8%R /\ odds_ratio r = 1.1%R).
Proof.
  unfold Generator.generate_variant.
  do 5 skip_draw.
  eapply post_bind; [apply (zero_uniform 1e-8 5e-5)|]. intros p ->.
  do 2 skip_draw.
  eapply post_bind; [apply (zero_uniform 1.1 3.5)|]. intros o ->.
  do 2 skip_draw.
  apply post_ret. simpl. auto.
Qed.

(** The claim of open intervals and of columns for every N fails: a source
    whose sample is 0, which is a number of [0, 1), gives a record whose
    p-value is 1e-8 and whose odds ratio is 1.1, the excluded ends; and the
    table for N = 0 has no column. *)
Lemma generated_table_open_ranges_counterexample :
  sample_in_unit zero_source
  /\ (exists r,
        rows (fst (@Generator.generate_covid_risk_variants zero_source 1
                     (Generator.seeded 42))) = [r]
        /\ ~ (1e-8 < p_value r)%R
        /\ ~ (1.1 < odds_ratio r)%R)
  /\ columns (fst (@Generator.generate_covid_risk_variants zero_source 0
                     (Generator.seeded 42))) <> Generator.row_keys.
Proof.
  split; [exact zero_samples_in_unit|]. split.
  - destruct (generate_post (RS := zero_source) _ 1 zero_generate_variant
                (Generator.seeded 42)) as (Hlen & _ & _ & Hall).
    destruct (rows _) as [|r [|r' t]]; try discriminate.
    exists r. split; [reflexivity|].
    inversion Hall as [|? ? (Hp & Ho) _]; subst.
    rewrite Hp, Ho. split; lra.
  - discriminate.
Qed.

Section RunProps.
Context {D : DrawRelation}.

Lemma run_world_eq (w1 w2 : run_world) :
  run_py w1 = run_py w2 -> run_np w1 = run_np w2 -> w1 = w2.
Proof. destruct w1, w2. simpl. intros -> ->. reflexivity. Qed.

Lemma one_outcome_ret {A : Type} (a : A) : one_outcome (ret_run a).
Proof.
  intros w a1 w1 a2 w2 (-> & ->) (-> & ->). split; reflexivity.
Qed.

Lemma one_outcome_bind {A B : Type} (c : Run A) (k : A -> Run B) :
  one_outcome c -> (forall a, one_outcome (k a)) ->
  one_outcome (x <~ c ;; k x).
Proof.
  intros Hc Hk w b1 w1 b2 w2 (a1 & v1 & Hc1 & Hk1) (a2 & v2 & Hc2 & Hk2).
  destruct (Hc w a1 v1 a2 v2 Hc1 Hc2) as (-> & ->).
  exact (Hk a2 v2 b1 w1 b2 w2 Hk1 Hk2).
Qed.

Section Deterministic.
Hypothesis seeded_draws : deterministic_draws D.

Lemma one_outcome_randbelow (n : Z) : one_outcome (randbelow_run n).
Proof.
  intros w r1 w1 r2 w2 (H1 & E1) (H2 & E2).
  destruct (proj1 seeded_draws _ _ _ _ _ _ H1 H2) as (-> & Es).
  split; [reflexivity|]. apply run_world_eq; congruence.
Qed.

Lemma one_outcome_sample : one_outcome sample_run.
Proof.
  intros w u1 w1 u2 w2 (H1 & E1) (H2 & E2).
  destruct (proj2 seeded_draws _ _ _ _ _ H1 H2) as (-> & Es).
  split; [reflexivity|]. apply run_world_eq; congruence.
Qed.

Lemma one_outcome_randint (a b : Z) : one_outcome (randint_run a b).
Proof.
  apply one_outcome_bind; [apply one_outcome_randbelow|].
  intros r. apply one_outcome_ret.
Qed.

Lemma one_outcome_choice (seq : list string) : one_outcome (choice_run seq).
Proof.
  apply one_outcome_bind; [apply one_outcome_randbelow|].
  intros i. apply one_outcome_ret.
Qed.

Lemma one_outcome_uniform (low high : R) : one_outcome (uniform_run low high).
Proof.
  apply one_outcome_bind; [apply one_outcome_sample|].
  intros u. apply one_outcome_ret.
Qed.

Lemma one_outcome_variant : one_outcome generate_variant_run.
Proof.
  unfold generate_variant_run.
  repeat first
    [ apply one_outcome_ret
    | apply one_outcome_bind;
      [ first [ apply one_outcome_randint | apply one_outcome_choice
              | apply one_outcome_uniform ]
      | intros ? ] ].
Qed.

Lemma one_outcome_loop (n : nat) :
  forall data, one_outcome (generate_loop_run n data).
Proof.
  induction n as [|n IH]; intros data; cbn [generate_loop_run].
  - apply one_outcome_ret.
  - apply one_outcome_bind; [apply one_outcome_variant|]. intros v. apply IH.
Qed.

End Deterministic.
End RunProps.

Section Adequacy.
Context {RS : RandomSource}.

Lemma runs_as_ret {A : Type} (a : A) : runs_as (ret a) (ret_run a).
Proof. intros w. split; reflexivity. Qed.

Lemma runs_as_bind {A B : Type} (c : Rand A) (k : A -> Rand B)
    (cr : @Run (graph_draws RS) A) (kr : A -> @Run (graph_draws RS) B) :
  runs_as c cr -> (forall a, runs_as (k a) (kr a)) ->
  runs_as (x <- c ;; k x) (x <~ cr ;; kr x).
Proof.
  intros Hc Hk w. unfold bind. specialize (Hc w).
  destruct (c w) as [a w1]. exists a, (to_run_world w1).
  split; [exact Hc|apply Hk].
Qed.

Lemma runs_as_randbelow (n : Z) :
  runs_as (lift_py (py_randbelow n)) (randbelow_run n).
Proof.
  intros w. unfold lift_py, randbelow_run.
  destruct (py_randbelow n (py w)) as [r s] eqn:E. simpl. auto.
Qed.

Lemma runs_as_sample : runs_as np_random_random sample_run.
Proof.
  intros w. unfold np_random_random, lift_np, sample_run.
  destruct (np_random_sample (np w)) as [u s] eqn:E. simpl. auto.
Qed.

Lemma runs_as_variant :
  runs_as Generator.generate_variant generate_variant_run.
Proof.
  unfold Generator.generate_variant, generate_variant_run, random_randint,
    randint_run, random_choice, choice_run, np_random_uniform, uniform_run.
  repeat first
    [ apply runs_as_ret
    | apply runs_as_randbelow
    | apply runs_as_sample
    | apply runs_as_bind; [|intros ?] ].
Qed.

Lemma runs_as_loop (n : nat) : forall data,
  runs_as (Generator.generate_loop n data) (generate_loop_run n data).
Proof.
  induction n as [|n IH]; intros data;
    cbn [Generator.generate_loop generate_loop_run].
  - apply runs_as_ret.
  - apply runs_as_bind; [apply runs_as_variant|]. intros v. apply IH.
Qed.

(** Every run of the functional model is a run of the relational one. *)
Lemma runs_as_generate (n : nat) :
  runs_as (Generator.generate_covid_risk_variants n) (generate_run n).
Proof.
  unfold Generator.generate_covid_risk_variants, generate_run.
  apply runs_as_bind; [apply runs_as_loop|]. intros data. apply runs_as_ret.
Qed.

Lemma graph_draws_deterministic : deterministic_draws (graph_draws RS).
Proof.
  split; simpl.
  - intros n s r1 s1 r2 s2 H1 H2. rewrite H1 in H2. now injection H2.
  - intros s u1 s1 u2 s2 H1 H2. rewrite H1 in H2. now injection H2.
Qed.

End Adequacy.

(** C9.  The draws of the two generators being relations between a state,
    an outcome and the next state: when each draw has one outcome from each
    state, as the draws of a seeded pseudo-random generator have, two runs of
    [generate_covid_risk_variants] that start from the same states of
    [random] and [numpy.random] with the same target count return the same
    table and leave the generators in the same states.  The runs of the
    functional model are such runs. *)
Theorem generator_run_deterministic (D : DrawRelation) (n1 n2 : nat)
    (w1 w2 : run_world) (df1 df2 : DataFrame) (w1' w2' : run_world) :
  deterministic_draws D ->
  run_py w1 = run_py w2 -> run_np w1 = run_np w2 -> n1 = n2 ->
  generate_run n1 w1 df1 w1' ->
  generate_run n2 w2 df2 w2' ->
  df1 = df2 /\ w1' = w2'.
Proof.
  intros HD Epy Enp -> H1 H2.
  rewrite (run_world_eq w1 w2 Epy Enp) in H1.
  revert H1 H2. unfold generate_run.
  apply (one_outcome_bind (generate_loop_run n2 [])
           (fun data => ret_run (Generator.DataFrame_of_records
                                   Generator.row_keys data))).
  - apply (one_outcome_loop HD).
  - intros data. apply one_outcome_ret.
Qed.

Lemma generator_run_deterministic_witness :
  exists df w',
    @generate_run (graph_draws lcg_source) 3
      (to_run_world (@Generator.seeded lcg_source 42)) df w'
    /\ fst (@Generator.generate_covid_risk_variants lcg_source 3
              (Generator.seeded 42)) = df.
Proof.
  pose proof (@runs_as_generate lcg_source 3 (Generator.seeded 42)) as Hrun.
  exists (fst (@Generator.generate_covid_risk_variants lcg_source 3
                 (Generator.seeded 42))).
  exists (to_run_world
            (snd (@Generator.generate_covid_risk_variants lcg_source 3
                    (Generator.seeded 42)))).
  split; [exact Hrun|].
  exact (proj1 (generator_run_deterministic (graph_draws lcg_source) 3 3
                  _ _ _ _ _ _ (@graph_draws_deterministic lcg_source)
                  eq_refl eq_refl eq_refl Hrun Hrun)).
Defined.

Lemma bind_run_intro {D : DrawRelation} {A B : Type} (c : Run A)
    (k : A -> Run B) (w w1 w2 : run_world) (a : A) (b : B) :
  c w a w1 -> k a w1 b w2 -> (x <~ c ;; k x) w b w2.
Proof. intros Hc Hk. exists a, w1. auto. Qed.

Section Unseeded.

Let w0 : @run_world unseeded_draws := @mkRunWorld unseeded_draws tt tt.

Lemma unseeded_randint (a b : Z) :
  @randint_run unseeded_draws a b w0 (a + 0)%Z w0.
Proof.
  apply (bind_run_intro _ _ w0 w0 w0 0%Z); repeat split.
Qed.

Lemma unseeded_choice (seq : list string) :
  @choice_run unseeded_draws seq w0 (nth (Z.to_nat 0) seq "") w0.
Proof.
  apply (bind_run_intro _ _ w0 w0 w0 0%Z); repeat split.
Qed.

Lemma unseeded_uniform (low high u : R) :
  u = 0%R \/ u = (1 / 2)%R ->
  @uniform_run unseeded_draws low high w0 (low + (high - low) * u)%R w0.
Proof.
  intros Hu. apply (bind_run_intro _ _ w0 w0 w0 u); [|split; reflexivity].
  split; [exact Hu|reflexivity].
Qed.

Lemma unseeded_variant (u : R) :
  u = 0%R \/ u = (1 / 2)%R ->
  exists v, @generate_variant_run unseeded_draws w0 v w0
            /\ p_value v = (1e-8 + (5e-5 - 1e-8) * u)%R.
Proof.
  intros Hu. eexists. split.
  - unfold generate_variant_run.
    repeat (eapply bind_run_intro;
            [ first [ apply unseeded_randint | apply unseeded_choice
                    | apply (unseeded_uniform _ _ u Hu) ] | ]).
    split; reflexivity.
  - reflexivity.
Qed.

Lemma unseeded_table (u : R) :
  u = 0%R \/ u = (1 / 2)%R ->
  exists df, @generate_run unseeded_draws 1 w0 df w0
             /\ map p_value (rows df) = [1e-8 + (5e-5 - 1e-8) * u]%R.
Proof.
  intros Hu. destruct (unseeded_variant u Hu) as (v & Hv & Hp).
  exists (Generator.DataFrame_of_records Generator.row_keys ([] ++ [v])).
  split.
  - unfold generate_run. cbn [generate_loop_run].
    apply (bind_run_intro _ _ w0 w0 w0 ([] ++ [v])); [|split; reflexivity].
    apply (bind_run_intro _ _ w0 w0 w0 v); [exact Hv|split; reflexivity].
  - cbn [app Generator.DataFrame_of_records rows map]. now rewrite Hp.
Qed.

End Unseeded.

(** Without the hypothesis the conclusion fails: when a sample may be 0 or
    1/2, two runs for one record from the same state return tables with
    different p-values. *)
Lemma unseeded_runs_differ :
  exists df1 df2,
    @generate_run unseeded_draws 1 (@mkRunWorld unseeded_draws tt tt) df1
                  (@mkRunWorld unseeded_draws tt tt)
    /\ @generate_run unseeded_draws 1 (@mkRunWorld unseeded_draws tt tt) df2
                     (@mkRunWorld unseeded_draws tt tt)
    /\ df1 <> df2.
Proof.
  destruct (unseeded_table 0%R (or_introl eq_refl)) as (df1 & R1 & P1).
  destruct (unseeded_table (1 / 2)%R (or_intror eq_refl)) as (df2 & R2 & P2).
  exists df1, df2. split; [exact R1|]. split; [exact R2|].
  intros E. rewrite E, P2 in P1. injection P1 as P1. lra.
Qed.

(** ** networkx graphs *)

Lemma has_node_In (n : string) (G : Graph) :
  has_node n G = true <-> In n (nodes G).
Proof.
  unfold has_node. rewrite existsb_exists. split.
  - intros (x & Hx & E). apply String.eqb_eq in E. now subst.
  - intros H. exists n. split; [exact H|apply String.eqb_refl].
Qed.

Lemma add_node_edges (n : string) (G : Graph) :
  edges (add_node n G) = edges G.
Proof. unfold add_node. destruct (has_node n G); reflexivity. Qed.

Lemma add_node_present (n : string) (G : Graph) :
  In n (nodes G) -> add_node n G = G.
Proof.
  intros H. unfold add_node. apply has_node_In in H. now rewrite H.
Qed.

Lemma add_node_In (n x : string) (G : Graph) :
  In x (nodes (add_node n G)) <-> x = n \/ In x (nodes G).
Proof.
  unfold add_node. destruct (has_node n G) eqn:E; simpl.
  - apply has_node_In in E. split; [auto|]. intros [->|H]; auto.
  - rewrite in_app_iff. simpl. intuition.
Qed.

Lemma add_node_NoDup (n : string) (G : Graph) :
  NoDup (nodes G) -> NoDup (nodes (add_node n G)).
Proof.
  intros Hnd. unfold add_node. destruct (has_node n G) eqn:E; simpl; [exact Hnd|].
  assert (Hn : ~ In n (nodes G)).
  { intros H. apply has_node_In in H. congruence. }
  apply NoDup_rev in Hnd. rewrite <- (rev_involutive (nodes G ++ [n])).
  apply NoDup_rev. rewrite rev_app_distr. simpl. constructor; [|exact Hnd].
  now rewrite <- in_rev.
Qed.

(** The graph after the first loop of [create_test_network]. *)
Lemma add_nodes_spec (genes : list string) : forall G : Graph,
  let G' := fold_left (fun G gene => add_node gene G) genes G in
  edges G' = edges G
  /\ (NoDup (nodes G) -> NoDup (nodes G'))
  /\ (forall x, In x (nodes G') <-> In x genes \/ In x (nodes G)).
Proof.
  induction genes as [|g t IH]; intros G; simpl.
  - split; [reflexivity|]. split; [auto|]. intuition.
  - destruct (IH (add_node g G)) as (He & Hnd & Hin).
    split; [now rewrite He, add_node_edges|]. split.
    + intros H. now apply Hnd, add_node_NoDup.
    + intros x. rewrite Hin, add_node_In. intuition.
Qed.

Lemma joins_same_pair (u v : string) (e : string * string * R) :
  joins u v e = true <-> same_pair (fst e) (u, v).
Proof.
  destruct e as [[a b] w]. unfold joins, same_pair. simpl.
  rewrite orb_true_iff, !andb_true_iff, !String.eqb_eq.
  split.
  - intros [(-> & ->)|(-> & ->)]; auto.
  - intros [[= -> ->]|[= -> ->]]; auto.
Qed.

Lemma has_edge_iff (u v : string) (G : Graph) :
  has_edge u v G = true <-> exists p, In p (edge_pairs G) /\ same_pair p (u, v).
Proof.
  unfold has_edge, edge_pairs. rewrite existsb_exists. split.
  - intros (e & He & Hj). exists (fst e). split; [now apply in_map|].
    now apply joins_same_pair.
  - intros (p & Hp & Hs). apply in_map_iff in Hp. destruct Hp as (e & <- & He).
    exists e. split; [exact He|]. now apply joins_same_pair.
Qed.

Lemma add_edge_nodes (u v : string) (w : R) (G : Graph) :
  In u (nodes G) -> In v (nodes G) -> nodes (add_edge u v w G) = nodes G.
Proof.
  intros Hu Hv. unfold add_edge.
  rewrite (add_node_present u G Hu), (add_node_present v G Hv).
  destruct (has_edge u v G); reflexivity.
Qed.

Lemma add_edge_pairs (u v : string) (w : R) (G : Graph) :
  edge_pairs (add_edge u v w G)
  = if has_edge u v G then edge_pairs G else edge_pairs G ++ [(u, v)].
Proof.
  unfold add_edge, edge_pairs, has_edge. rewrite !add_node_edges.
  destruct (existsb (joins u v) (edges G)); simpl.
  - rewrite map_map. apply map_ext. intros [[a b] x].
    destruct (joins u v (a, b, x)); reflexivity.
  - rewrite map_app. reflexivity.
Qed.

Lemma number_of_edges_pairs (G : Graph) :
  number_of_edges G = List.length (edge_pairs G).
Proof. unfold number_of_edges, edge_pairs. now rewrite length_map. Qed.

(** ** The pairs the loops meet *)

Lemma index_pairs_In (genes : list string) (a b : string) :
  In (a, b) (index_pairs genes) -> In a genes /\ In b genes.
Proof.
  induction genes as [|g t IH]; simpl; [intros []|].
  rewrite in_app_iff, in_map_iff. intros [(x & [= <- <-] & Hx)|H]; [auto|].
  destruct (IH H). auto.
Qed.

Lemma index_pairs_distinct_ends (genes : list string) (a b : string) :
  NoDup genes -> In (a, b) (index_pairs genes) -> a <> b.
Proof.
  induction 1 as [|g t Hnotin Hnd IH]; simpl; [intros []|].
  rewrite in_app_iff, in_map_iff. intros [(x & [= <- <-] & Hx)|H].
  - intros ->. contradiction.
  - now apply IH.
Qed.

Lemma index_pairs_complete (genes : list string) (a b : string) :
  In a genes -> In b genes -> a <> b ->
  In (a, b) (index_pairs genes) \/ In (b, a) (index_pairs genes).
Proof.
  induction genes as [|g t IH]; simpl; [intros []|].
  intros [->|Ha] [->|Hb] Hne; rewrite !in_app_iff.
  - congruence.
  - left. left. now apply in_map.
  - right. left. now apply in_map.
  - destruct (IH Ha Hb Hne); auto.
Qed.

Lemma distinct_pairs_app (l1 l2 : list (string * string)) :
  distinct_pairs l1 -> distinct_pairs l2 ->
  (forall p q, In p l1 -> In q l2 -> ~ same_pair p q) ->
  distinct_pairs (l1 ++ l2).
Proof.
  induction 1 as [|p l Hp Hl IH]; intros H2 Hx; simpl; [exact H2|].
  constructor.
  - intros q Hq. apply in_app_iff in Hq. destruct Hq as [Hq|Hq].
    + now apply Hp.
    + apply Hx; [now left|exact Hq].
  - apply IH; [exact H2|]. intros p' q Hp' Hq. apply Hx; [now right|exact Hq].
Qed.

Lemma distinct_pairs_before (done l : list (string * string)) (a : string * string) :
  distinct_pairs (done ++ a :: l) ->
  forall q, In q done -> ~ same_pair q a.
Proof.
  induction done as [|d t IH]; simpl; intros H q; [intros []|].
  inversion H as [|? ? Hd Ht]; subst. intros [<-|Hq].
  - apply Hd. apply in_app_iff. right. now left.
  - now apply IH.
Qed.

Lemma index_pairs_distinct (genes : list string) :
  NoDup genes -> distinct_pairs (index_pairs genes).
Proof.
  induction 1 as [|g t Hnotin Hnd IH]; simpl; [constructor|].
  apply distinct_pairs_app; [|exact IH|].
  - clear IH. induction Hnd as [|x t' Hx Hnd' IHt]; simpl; constructor.
    + intros q Hq. apply in_map_iff in Hq. destruct Hq as (y & <- & Hy).
      intros [[= ->]|[= -> ->]]; [contradiction|].
      apply Hnotin. now left.
    + apply IHt. intros H. apply Hnotin. now right.
  - intros p [a b] Hp Hq. apply in_map_iff in Hp. destruct Hp as (x & <- & Hx).
    apply index_pairs_In in Hq. destruct Hq as (Ha & Hb).
    intros [[= -> ->]|[= -> ->]]; contradiction.
Qed.

Lemma index_pairs_length (genes : list string) :
  2 * List.length (index_pairs genes)
  = List.length genes * (List.length genes - 1).
Proof.
  induction genes as [|g t IH]; simpl; [reflexivity|].
  rewrite length_app, length_map, Nat.sub_0_r.
  destruct t as [|x t']; simpl in *; [reflexivity|]. lia.
Qed.

(** ** Interaction Graph Builder *)

Lemma Rltb_true (x y : R) : (x < y)%R -> Rltb x y = true.
Proof. intros H. unfold Rltb. destruct (Rlt_dec x y); [reflexivity|contradiction]. Qed.

Lemma Rltb_false (x y : R) : (y <= x)%R -> Rltb x y = false.
Proof. intros H. unfold Rltb. destruct (Rlt_dec x y); [lra|reflexivity]. Qed.

Section NetworkProps.
Context {RS : RandomSource}.

Lemma for_each_app {A : Type} (body : A -> Graph -> Rand Graph)
    (l1 l2 : list A) : forall (G : Graph) (w : world),
  for_each body (l1 ++ l2) G w
  = (G' <- for_each body l1 G ;; for_each body l2 G') w.
Proof.
  induction l1 as [|a t IH]; intros G w; simpl; [reflexivity|].
  unfold bind in *. destruct (body a G w) as [G1 w1]. apply IH.
Qed.

Lemma inner_loop_for_each (p : R) (gene1 : string) (rest : list string) :
  forall (G : Graph) (w : world),
    inner_loop p gene1 rest G w
    = for_each (consider p) (map (pair gene1) rest) G w.
Proof.
  induction rest as [|g t IH]; intros G w; cbn [inner_loop for_each map];
    [reflexivity|].
  unfold bind. destruct (consider p (gene1, g) G w) as [G1 w1]. apply IH.
Qed.

(** The two nested loops run the body once on each index pair, in order. *)
Lemma outer_loop_for_each (p : R) (genes : list string) :
  forall (G : Graph) (w : world),
    outer_loop p genes G w = for_each (consider p) (index_pairs genes) G w.
Proof.
  induction genes as [|g t IH]; intros G w; cbn [outer_loop index_pairs];
    [reflexivity|].
  rewrite for_each_app. unfold bind.
  rewrite inner_loop_for_each.
  destruct (for_each (consider p) (map (pair g) t) G w) as [G1 w1]. apply IH.
Qed.

(** A loop over [l] takes an invariant of the pairs met so far from [done]
    to [done ++ l]. *)
Lemma for_each_invariant {A : Type} (body : A -> Graph -> Rand Graph)
    (I : list A -> Graph -> Prop) (l : list A) :
  (forall done a G, (exists l', done ++ a :: l' = l) ->
     I done G -> post (body a G) (I (done ++ [a]))) ->
  forall G, I [] G -> post (for_each body l G) (I l).
Proof.
  intros Hstep.
  assert (H : forall rest done G, done ++ rest = l -> I done G ->
                post (for_each body rest G) (I l)).
  { induction rest as [|a t IH]; intros done G E HI; simpl.
    - apply post_ret. rewrite app_nil_r in E. now subst.
    - eapply post_bind.
      + apply (Hstep done a G); [now exists t|exact HI].
      + intros G' HI'. apply (IH (done ++ [a])); [|exact HI'].
        rewrite <- app_assoc. exact E. }
  intros G HI. now apply (H l []).
Qed.

(** Whatever is drawn, the body leaves the graph alone or adds the edge. *)
Lemma consider_cases (p : R) (gene1 gene2 : string) (G : Graph) :
  post (consider p (gene1, gene2) G)
       (fun G' => G' = G \/ exists c : R, G' = add_edge gene1 gene2 c G).
Proof.
  unfold consider. eapply post_bind; [apply post_any|]. intros u _.
  destruct (Rltb u p).
  - eapply post_bind; [apply post_any|]. intros c _. apply post_ret. eauto.
  - apply post_ret. now left.
Qed.

(** Nodes and edges after the loops, for any probability: the nodes are
    kept, and every edge joins the two genes of a pair that was met. *)
Lemma loops_edges_among_pairs (p : R) (l : list (string * string)) (G : Graph) :
  (forall a b, In (a, b) l -> In a (nodes G) /\ In b (nodes G)) ->
  post (for_each (consider p) l G)
       (fun G' => nodes G' = nodes G
                  /\ incl (edge_pairs G') (edge_pairs G ++ l)).
Proof.
  intros Hl.
  apply (for_each_invariant (consider p)
           (fun done G' => nodes G' = nodes G
                           /\ incl (edge_pairs G') (edge_pairs G ++ done))).
  - intros done [a b] G1 (l' & E) (Hn & Hi).
    assert (Hab : In a (nodes G) /\ In b (nodes G)).
    { apply Hl. rewrite <- E. apply in_app_iff. right. now left. }
    intros w. destruct (consider_cases p a b G1 w) as [->|(c & ->)].
    + split; [exact Hn|]. intros x Hx. apply Hi in Hx.
      rewrite app_assoc. apply in_app_iff. now left.
    + split.
      * rewrite add_edge_nodes; rewrite ?Hn; tauto.
      * rewrite add_edge_pairs. intros x Hx.
        rewrite app_assoc, in_app_iff.
        destruct (has_edge a b G1); [left; now apply Hi|].
        apply in_app_iff in Hx. destruct Hx as [Hx|Hx]; [left; now apply Hi|].
        now right.
  - split; [reflexivity|]. rewrite app_nil_r. apply incl_refl.
Qed.

Section NetworkInUnit.
Hypothesis samples : sample_in_unit RS.

(** With probability 0 no draw is below the probability. *)
Lemma consider_never (pair : string * string) (G : Graph) :
  post (consider 0 pair G) (fun G' => G' = G).
Proof.
  destruct pair as [gene1 gene2]. unfold consider.
  eapply post_bind; [apply (random_in_unit samples)|]. intros u Hu.
  rewrite Rltb_false by lra. now apply post_ret.
Qed.

(** With probability 1 every draw is below the probability. *)
Lemma consider_always (gene1 gene2 : string) (G : Graph) :
  post (consider 1 (gene1, gene2) G)
       (fun G' => exists c : R, G' = add_edge gene1 gene2 c G).
Proof.
  unfold consider.
  eapply post_bind; [apply (random_in_unit samples)|]. intros u Hu.
  rewrite Rltb_true by lra.
  eapply post_bind; [apply post_any|]. intros c _. apply post_ret. eauto.
Qed.

Lemma loops_never (l : list (string * string)) (G : Graph) :
  post (for_each (consider 0) l G) (fun G' => G' = G).
Proof.
  apply (for_each_invariant (consider 0) (fun _ G' => G' = G)); [|reflexivity].
  intros done a G1 _ ->. apply consider_never.
Qed.

Lemma loops_always (l : list (string * string)) (G : Graph) :
  distinct_pairs (edge_pairs G ++ l) ->
  post (for_each (consider 1) l G)
       (fun G' => edge_pairs G' = edge_pairs G ++ l).
Proof.
  intros Hd.
  apply (for_each_invariant (consider 1)
           (fun done G' => edge_pairs G' = edge_pairs G ++ done)).
  - intros done [a b] G1 (l' & E) HI w.
    destruct (consider_always a b G1 w) as (c & ->).
    rewrite add_edge_pairs.
    destruct (has_edge a b G1) eqn:Eh.
    + exfalso. apply has_edge_iff in Eh. destruct Eh as (q & Hq & Hs).
      rewrite HI in Hq. rewrite <- E, app_assoc in Hd.
      exact (distinct_pairs_before _ _ _ Hd q Hq Hs).
    + rewrite HI, app_assoc. reflexivity.
  - now rewrite app_nil_r.
Qed.

End NetworkInUnit.
End NetworkProps.

Lemma for_each_single {RS : RandomSource} {A : Type}
    (body : A -> Graph -> Rand Graph) (a : A) (G : Graph) (w : world) :
  fst (for_each body [a] G w) = fst (body a G w).
Proof.
  cbn [for_each]. unfold bind, ret. destruct (body a G w). reflexivity.
Qed.

Lemma half_edge_count (k n : nat) : 2 * n = k * (k - 1) -> n = k * (k - 1) / 2.
Proof.
  intros <-. rewrite Nat.mul_comm, Nat.div_mul; [reflexivity|discriminate].
Qed.

(** C4.  A sample of the random source being a number of [0, 1): with
    [interaction_probability = 0] the graph built from any gene sequence has
    one node per distinct gene and zero edges; with
    [interaction_probability = 1] the graph built from k distinct genes has
    exactly these k genes as its nodes, exactly k*(k-1)/2 edges, none of
    them from a gene to itself, and an edge between every two distinct
    genes: it is the complete graph on the k genes. *)
Theorem interaction_probability_extremes (RS : RandomSource)
    (genes : list string) (w : world) :
  sample_in_unit RS ->
  (let G := fst (create_test_network genes 0 w) in
   NoDup (nodes G)
   /\ (forall g, In g (nodes G) <-> In g genes)
   /\ number_of_edges G = 0)
  /\ (NoDup genes ->
      let G := fst (create_test_network genes 1 w) in
      let k := List.length genes in
      NoDup (nodes G)
      /\ (forall g, In g (nodes G) <-> In g genes)
      /\ number_of_nodes G = k
      /\ number_of_edges G = k * (k - 1) / 2
      /\ (forall a b, In (a, b) (edge_pairs G) ->
            a <> b /\ In a genes /\ In b genes)
      /\ (forall a b, In a genes -> In b genes -> a <> b ->
            has_edge a b G = true)).
Proof.
  intros samples.
  destruct (add_nodes_spec genes empty_graph) as (He & Hnd0 & Hin0).
  simpl in He, Hnd0, Hin0.
  set (G0 := fold_left (fun G gene => add_node gene G) genes empty_graph) in *.
  assert (E0 : edge_pairs G0 = []) by (unfold edge_pairs; now rewrite He).
  assert (Hnodes : forall p,
             nodes (fst (create_test_network genes p w)) = nodes G0).
  { intros p. unfold create_test_network. fold G0.
    rewrite outer_loop_for_each.
    apply (loops_edges_among_pairs p (index_pairs genes) G0).
    intros a b Hab. apply index_pairs_In in Hab. rewrite !Hin0. tauto. }
  assert (HndG0 : NoDup (nodes G0)) by (apply Hnd0; constructor).
  assert (HinG0 : forall g, In g (nodes G0) <-> In g genes)
    by (intros g; rewrite Hin0; simpl; tauto).
  split.
  - cbv zeta. rewrite Hnodes. split; [exact HndG0|]. split; [exact HinG0|].
    unfold create_test_network. fold G0.
    rewrite outer_loop_for_each, (loops_never samples). unfold number_of_edges.
    now rewrite He.
  - intros Hnd. cbv zeta. rewrite Hnodes.
    split; [exact HndG0|]. split; [exact HinG0|].
    split.
    { unfold number_of_nodes. rewrite Hnodes. apply Permutation_length.
      apply NoDup_Permutation; assumption. }
    unfold create_test_network. fold G0. rewrite outer_loop_for_each.
    pose proof (loops_always samples (index_pairs genes) G0) as Hall.
    rewrite E0 in Hall. simpl in Hall.
    specialize (Hall (index_pairs_distinct genes Hnd) w). simpl in Hall.
    split; [|split].
    + rewrite number_of_edges_pairs, Hall.
      apply half_edge_count, index_pairs_length.
    + intros a b Hab. rewrite Hall in Hab.
      split; [now apply (index_pairs_distinct_ends genes)|].
      now apply index_pairs_In.
    + intros a b Ha Hb Hne. apply has_edge_iff. rewrite Hall.
      destruct (index_pairs_complete genes a b Ha Hb Hne) as [H|H].
      * exists (a, b). split; [exact H|now left].
      * exists (b, a). split; [exact H|now right].
Qed.

Lemma interaction_probability_extremes_witness :
  number_of_edges
    (fst (@create_test_network lcg_source ["ACE2"; "TYK2"; "IL6"; "TNF"] 0
            (Generator.seeded 42))) = 0
  /\ number_of_nodes
       (fst (@create_test_network lcg_source ["ACE2"; "TYK2"; "IL6"; "TNF"] 1
               (Generator.seeded 42))) = 4
  /\ number_of_edges
       (fst (@create_test_network lcg_source ["ACE2"; "TYK2"; "IL6"; "TNF"] 1
               (Generator.seeded 42))) = 6.
Proof.
  destruct (interaction_probability_extremes lcg_source
              ["ACE2"; "TYK2"; "IL6"; "TNF"] (Generator.seeded 42)
              lcg_samples_in_unit) as (H0 & H1).
  split; [exact (proj2 (proj2 H0))|].
  destruct H1 as (_ & _ & Hn & Hk & _); [apply NoDup_by_nodup; reflexivity|].
  split; [exact Hn|exact Hk].
Defined.

(** C7.  For every input gene sequence the builder creates exactly one node
    per distinct gene, runs the edge draw once on each index pair i < j, in
    order, and joins only genes of a pair it met.  When the sequence has no
    duplicate, the pairs met are the unordered pairs of distinct genes, each
    met exactly once, and every edge joins two distinct genes. *)
Theorem network_nodes_and_pairs (RS : RandomSource)
    (genes : list string) (p : R) (w : world) :
  let G0 := fold_left (fun G gene => add_node gene G) genes empty_graph in
  let G := fst (create_test_network genes p w) in
  NoDup (nodes G)
  /\ (forall g, In g (nodes G) <-> In g genes)
  /\ create_test_network genes p w
     = for_each (consider p) (index_pairs genes) G0 w
  /\ (forall a b, In (a, b) (edge_pairs G) -> In (a, b) (index_pairs genes))
  /\ (NoDup genes ->
      distinct_pairs (index_pairs genes)
      /\ (forall a b, In (a, b) (index_pairs genes) ->
            a <> b /\ In a genes /\ In b genes)
      /\ (forall a b, In a genes -> In b genes -> a <> b ->
            In (a, b) (index_pairs genes) \/ In (b, a) (index_pairs genes))
      /\ (forall a b, In (a, b) (edge_pairs G) -> a <> b)).
Proof.
  intros G0 G.
  destruct (add_nodes_spec genes empty_graph) as (He & Hnd0 & Hin0).
  fold G0 in He, Hnd0, Hin0. simpl in He, Hnd0, Hin0.
  assert (Hloop : create_test_network genes p w
                  = for_each (consider p) (index_pairs genes) G0 w).
  { unfold create_test_network. fold G0. apply outer_loop_for_each. }
  assert (Hpost : nodes G = nodes G0
                  /\ incl (edge_pairs G) (edge_pairs G0 ++ index_pairs genes)).
  { unfold G. rewrite Hloop. apply loops_edges_among_pairs.
    intros a b Hab. apply index_pairs_In in Hab.
    rewrite !Hin0. tauto. }
  destruct Hpost as (Hn & Hi).
  assert (E0 : edge_pairs G0 = []) by (unfold edge_pairs; now rewrite He).
  rewrite E0 in Hi. simpl in Hi.
  split; [rewrite Hn; apply Hnd0; constructor|].
  split; [intros g; rewrite Hn, Hin0; tauto|].
  split; [exact Hloop|]. split; [intros a b; apply Hi|].
  intros Hnd. split; [now apply index_pairs_distinct|]. split; [|split].
  - intros a b Hab. split; [now apply (index_pairs_distinct_ends genes)|].
    now apply index_pairs_In.
  - apply index_pairs_complete.
  - intros a b Hab. apply (index_pairs_distinct_ends genes); [exact Hnd|].
    now apply Hi.
Qed.

Lemma network_nodes_and_pairs_witness :
  number_of_nodes
    (fst (@create_test_network lcg_source ["ACE2"; "TYK2"; "IL6"] 0.3
            (Generator.seeded 42))) <= 3
  /\ distinct_pairs (index_pairs ["ACE2"; "TYK2"; "IL6"])
  /\ (forall a b,
        In (a, b)
           (edge_pairs
              (fst (@create_test_network lcg_source ["ACE2"; "TYK2"; "IL6"] 0.3
                      (Generator.seeded 42)))) ->
        a <> b).
Proof.
  destruct (network_nodes_and_pairs lcg_source ["ACE2"; "TYK2"; "IL6"] 0.3
              (Generator.seeded 42)) as (Hnd & Hin & _ & _ & H).
  destruct H as (Hd & _ & _ & Hloops); [apply NoDup_by_nodup; reflexivity|].
  split; [|split; [exact Hd|exact Hloops]].
  unfold number_of_nodes.
  change 3 with (List.length ["ACE2"; "TYK2"; "IL6"]).
  apply NoDup_incl_length; [exact Hnd|]. intros g Hg. now apply Hin.
Defined.

(** With a gene written twice, the builder meets a pair of equal genes and
    joins the gene to itself, and it meets an unordered pair twice. *)
Lemma duplicate_genes_counterexample :
  (exists c : R,
     edges (fst (@create_test_network lcg_source ["ACE2"; "ACE2"] 1
                   (Generator.seeded 42)))
     = [("ACE2", "ACE2", c)])
  /\ index_pairs ["ACE2"; "TYK2"; "ACE2"]
     = [("ACE2", "TYK2"); ("ACE2", "ACE2"); ("TYK2", "ACE2")].
Proof.
  split; [|reflexivity].
  unfold create_test_network. rewrite outer_loop_for_each.
  cbn [index_pairs map app]. rewrite for_each_single.
  destruct (consider_always (RS := lcg_source) lcg_samples_in_unit
              "ACE2" "ACE2"
              (fold_left (fun G gene => add_node gene G) ["ACE2"; "ACE2"] empty_graph)
              (Generator.seeded 42)) as (c & ->).
  exists c. reflexivity.
Qed.

(** ** Network metrics *)

(** C8.  On a graph with zero edges, step 5 makes no networkx call and
    returns the skipped report, whatever the centrality functions would do,
    even raise; on a graph with a positive edge count it calls degree
    centrality first and, when that returns, betweenness centrality; so
    centrality is computed exactly when the edge count is positive. *)
Theorem network_metrics_guard (NX : Centrality) (G : Graph) :
  (number_of_edges G = 0 -> network_metrics G = ([], Some MetricsSkipped))
  /\ (0 < number_of_edges G ->
      (exists t, fst (network_metrics G) = CallDegreeCentrality G :: t)
      /\ forall dc bc,
           nx_degree_centrality G = Some dc ->
           nx_betweenness_centrality G = Some bc ->
           network_metrics G
           = ([CallDegreeCentrality G; CallBetweennessCentrality G],
              option_map (fun top => MetricsCalculated (fst top) (snd top) dc bc)
                         (max_key dc)))
  /\ (fst (network_metrics G) <> [] <-> 0 < number_of_edges G).
Proof.
  unfold network_metrics.
  destruct (Nat.ltb_spec 0 (number_of_edges G)) as [Hpos|Hz].
  - assert (Ht : exists t,
               fst (degree_centrality <-! call_degree_centrality G ;;
                    betweenness_centrality <-! call_betweenness_centrality G ;;
                    top <-! ([], max_key degree_centrality) ;;
                    lret (MetricsCalculated (fst top) (snd top)
                            degree_centrality betweenness_centrality))
               = CallDegreeCentrality G :: t).
    { unfold call_degree_centrality, call_betweenness_centrality, lbind, lret.
      destruct (nx_degree_centrality G) as [dc|]; [|now exists []].
      destruct (nx_betweenness_centrality G) as [bc|]; [|now exists [CallBetweennessCentrality G]].
      destruct (max_key dc); simpl; eauto. }
    split; [lia|]. split.
    + intros _. split; [exact Ht|]. intros dc bc Hdc Hbc.
      unfold call_degree_centrality, call_betweenness_centrality, lbind, lret.
      rewrite Hdc, Hbc. destruct (max_key dc); reflexivity.
    + destruct Ht as (t & ->). split; [auto|discriminate].
  - split; [reflexivity|]. split; [lia|]. simpl. split; [congruence|lia].
Qed.

Lemma network_metrics_guard_witness :
  @network_metrics raising_centrality no_edge_graph = ([], Some MetricsSkipped)
  /\ exists t,
       fst (@network_metrics flat_centrality one_edge_graph)
       = CallDegreeCentrality one_edge_graph :: t.
Proof.
  split.
  - apply (proj1 (network_metrics_guard raising_centrality no_edge_graph)).
    reflexivity.
  - apply (proj1 (proj2 (network_metrics_guard flat_centrality one_edge_graph))).
    unfold one_edge_graph, number_of_edges. simpl. lia.
Defined.

(** ** The definitions on small inputs *)

Example unique_first_appearance :
  Series.unique ["b"; "a"; "b"; "c"; "a"] = ["b"; "a"; "c"].
Proof. reflexivity. Qed.

Example group_keys_fixture3 : group_keys fixture3 = ["ACE2"; "TYK2"].
Proof. reflexivity. Qed.

Example summary_keys_fixture3 :
  map (fun kv => (fst kv, variant_count (snd kv), diseases (snd kv)))
      (gene_summary None fixture3)
  = [("ACE2", 2, "ARDS, Thrombosis"); ("TYK2", 1, "Pneumonia")].
Proof. reflexivity. Qed.

Example str_decimal : str 1234567 = "1234567".
Proof. reflexivity. Qed.

Example chromosomes_list :
  List.length Generator.chromosomes = 24
  /\ nth 9 Generator.chromosomes "" = "chr10"
  /\ nth 23 Generator.chromosomes "" = "chrY".
Proof. repeat split. Qed.

Example index_pairs_of_three :
  index_pairs ["ACE2"; "TYK2"; "IL6"]
  = [("ACE2", "TYK2"); ("ACE2", "IL6"); ("TYK2", "IL6")].
Proof. reflexivity. Qed.

Example add_edge_twice :
  number_of_edges
    (add_edge "TYK2" "ACE2" 0.7%R (add_edge "ACE2" "TYK2" 0.5%R empty_graph)) = 1
  /\ nodes (add_edge "ACE2" "TYK2" 0.5%R empty_graph) = ["ACE2"; "TYK2"].
Proof. split; reflexivity. Qed.

Example first_generated_row :
  let df := fst (@Generator.generate_covid_risk_variants lcg_source 1
                   (@Generator.seeded lcg_source 42)) in
  map (fun r => (rs_id r, chromosome r, position r, chromosomal_location r,
                 host_gene r, sample_size r)) (rows df)
  = [("rs1000042", "chr4", 122302259%Z, Some "chr4:122302259", "FGB",
      Some 22226%Z)].
Proof. reflexivity. Qed.

(** * Further properties of the pipeline *)

(** ** Integer and categorical draws *)

Ltac draw L := refine (post_bind _ _ _ _ L _).

Section BoundedDraws.
Context {RS : RandomSource}.
Hypothesis bounded : randbelow_in_range RS.

Lemma post_lift_py {A : Type} (f : py_state -> A * py_state) (P : A -> Prop) :
  (forall s, P (fst (f s))) -> post (lift_py f) P.
Proof.
  intros H w. unfold lift_py. specialize (H (py w)).
  destruct (f (py w)) as [a s]. exact H.
Qed.

Lemma randint_in_range (a b : Z) :
  (a <= b)%Z -> post (random_randint a b) (fun x => a <= x <= b)%Z.
Proof.
  intros Hab. unfold random_randint.
  apply (post_bind _ _ (fun r => 0 <= r < b - a + 1)%Z).
  - apply post_lift_py. intros s. apply (proj1 bounded (b - a + 1)%Z s). lia.
  - intros r Hr. apply post_ret. lia.
Qed.

Lemma choice_in_seq (seq : list string) :
  seq <> [] -> post (random_choice seq) (fun x => In x seq).
Proof.
  intros Hne. unfold random_choice.
  assert (Hlen : (0 < Z.of_nat (List.length seq))%Z).
  { destruct seq; [congruence|simpl; lia]. }
  apply (post_bind _ _ (fun i => 0 <= i < Z.of_nat (List.length seq))%Z).
  - apply post_lift_py. intros s. apply (proj1 bounded _ s Hlen).
  - intros i Hi. apply post_ret. apply nth_In. lia.
Qed.

Lemma np_randint_in_range (low high : Z) :
  (low < high)%Z -> post (np_random_randint low high) (fun x => low <= x < high)%Z.
Proof.
  intros Hlt. unfold np_random_randint.
  apply (post_bind _ _ (fun r => 0 <= r < high - low)%Z).
  - apply post_lift_np. intros s. apply (proj2 bounded (high - low)%Z s). lia.
  - intros r Hr. apply post_ret. lia.
Qed.

Lemma np_choice_in (a : list string) :
  a <> [] -> post (np_random_choice a) (fun x => In x a).
Proof.
  intros Hne. unfold np_random_choice.
  assert (Hlen : (0 < Z.of_nat (List.length a))%Z).
  { destruct a; [congruence|simpl; lia]. }
  apply (post_bind _ _ (fun i => 0 <= i < Z.of_nat (List.length a))%Z);
    [apply (np_randint_in_range 0 _ Hlen)|].
  intros i Hi. apply post_ret. apply nth_In. lia.
Qed.

Lemma generate_variant_fields : post Generator.generate_variant generator_fields.
Proof.
  unfold Generator.generate_variant.
  draw (randint_in_range 1000000 99999999 ltac:(lia)). intros n Hn.
  draw (choice_in_seq Generator.chromosomes ltac:(discriminate)).
  intros chr Hchr.
  draw (randint_in_range 1000000 200000000 ltac:(lia)). intros pos Hpos.
  draw (choice_in_seq Generator.functional_consequences ltac:(discriminate)).
  intros cons Hcons.
  draw (choice_in_seq Generator.covid_genes ltac:(discriminate)).
  intros gene Hgene.
  skip_draw.
  draw (choice_in_seq Generator.related_diseases ltac:(discriminate)).
  intros dis Hdis.
  do 2 skip_draw.
  draw (choice_in_seq ["European"; "East Asian"; "Mixed"; "Middle Eastern"]
          ltac:(discriminate)).
  intros pop Hpop.
  draw (randint_in_range 500 50000 ltac:(lia)). intros size Hsize.
  apply post_ret. unfold generator_fields. cbn [rs_id chromosome position
    chromosomal_location functional_consequence host_gene related_disease
    study_population sample_size].
  repeat split; eauto; lia.
Qed.

Lemma tutorial_df_fields (n : nat) :
  post (Tutorial.df n) (fun df => Forall tutorial_fields (rows df)).
Proof.
  unfold Tutorial.df, Tutorial.data.
  eapply post_bind; [|intros c Hc; apply post_ret; exact Hc].
  draw (post_draws _
          (fun x => exists k, (1000000 <= k < 99999999)%Z
                              /\ x = ("rs" ++ str k)%string) n
          (post_bind _ _ _ _
             (np_randint_in_range 1000000 99999999 ltac:(lia))
             (fun k Hk => post_ret _ _ (ex_intro _ k (conj Hk eq_refl))))).
  intros rs (Hrsl & Hrs).
  draw (post_draws _
          (fun x => exists i, (1 <= i < 23)%Z /\ x = ("chr" ++ str i)%string) n
          (post_bind _ _ _ _
             (np_randint_in_range 1 23 ltac:(lia))
             (fun i Hi => post_ret _ _ (ex_intro _ i (conj Hi eq_refl))))).
  intros chr (Hchrl & Hchr).
  draw (post_draws _ _ n (np_randint_in_range 1000000 200000000 ltac:(lia))).
  intros pos (Hposl & Hpos).
  draw (post_draws _ _ n (np_choice_in Tutorial.covid_genes ltac:(discriminate))).
  intros gene (Hgenel & Hgene).
  do 5 skip_draw.
  draw (post_draws _ _ n
          (np_choice_in ["European"; "East Asian"; "Mixed"] ltac:(discriminate))).
  intros pop (Hpopl & Hpop).
  apply post_ret. unfold Tutorial.DataFrame_of_columns.
  cbn [rows Tutorial.c_rs_id Tutorial.c_chromosome Tutorial.c_position
       Tutorial.c_host_gene Tutorial.c_study_population].
  apply Forall_forall. intros r Hr. apply in_map_iff in Hr.
  destruct Hr as (i & <- & Hi). apply in_seq in Hi.
  unfold tutorial_fields. cbn [rs_id chromosome position chromosomal_location
    host_gene study_population sample_size].
  split; [apply (proj1 (Forall_nth _ rs) Hrs); lia|].
  split; [apply (proj1 (Forall_nth _ chr) Hchr); lia|].
  split; [apply (proj1 (Forall_nth _ pos) Hpos); lia|].
  split; [reflexivity|].
  split; [apply (proj1 (Forall_nth _ gene) Hgene); lia|].
  split; [apply (proj1 (Forall_nth _ pop) Hpop); lia|reflexivity].
Qed.

End BoundedDraws.

Lemma lcg_randbelow_in_range : randbelow_in_range lcg_source.
Proof.
  split; intros n s Hn; simpl; apply Z.mod_pos_bound; exact Hn.
Qed.

(** X1.  Under the contract of the bounded draws, every record of
    [generate_covid_risk_variants] has an rs id "rs" followed by an integer
    of [1000000, 99999999], a chromosome of the list, a position of
    [1000000, 200000000], the location "chromosome:position", a consequence,
    gene, disease and population of their lists and a sample size of
    [500, 50000]. *)
Theorem generated_records_fields (RS : RandomSource) (n : nat) (w : world) :
  randbelow_in_range RS ->
  Forall generator_fields
         (rows (fst (Generator.generate_covid_risk_variants n w))).
Proof.
  intros bounded.
  exact (proj2 (proj2 (proj2
           (generate_post generator_fields n
              (generate_variant_fields bounded) w)))).
Qed.

Lemma generated_records_fields_witness :
  Forall generator_fields
         (rows (fst (@Generator.generate_covid_risk_variants lcg_source 5
                       (Generator.seeded 42))))
  /\ randbelow_in_range lcg_source.
Proof.
  split; [|exact lcg_randbelow_in_range].
  apply (generated_records_fields lcg_source 5 (Generator.seeded 42)).
  exact lcg_randbelow_in_range.
Defined.

(** X2.  Under the contract of the bounded draws, every row of the tutorial
    table has an rs id "rs" followed by an integer of [1000000, 99999998], a
    chromosome "chr1" to "chr22" (never chrX or chrY), a position of
    [1000000, 199999999], a gene of the 24 tutorial genes, one of three
    populations, and no location and no sample size. *)
Theorem tutorial_rows_fields (RS : RandomSource) (n : nat) (w : world) :
  randbelow_in_range RS ->
  Forall tutorial_fields (rows (fst (Tutorial.df n w))).
Proof.
  intros bounded. exact (tutorial_df_fields bounded n w).
Qed.

Lemma tutorial_rows_fields_witness :
  Forall tutorial_fields
         (rows (fst (@Tutorial.df lcg_source 5 (Generator.seeded 42))))
  /\ randbelow_in_range lcg_source.
Proof.
  split; [|exact lcg_randbelow_in_range].
  apply (tutorial_rows_fields lcg_source 5 (Generator.seeded 42)).
  exact lcg_randbelow_in_range.
Defined.

(** X3.  A sample being a number of [0, 1), every allele frequency of both
    tables lies in the half-open interval [0.01, 0.5). *)
Theorem allele_frequency_in_range (RS : RandomSource) (n : nat) (w : world) :
  sample_in_unit RS ->
  (forall r, In r (rows (fst (Generator.generate_covid_risk_variants n w))) ->
     (0.01 <= allele_frequency r < 0.5)%R)
  /\ (forall r, In r (rows (fst (Tutorial.df n w))) ->
        (0.01 <= allele_frequency r < 0.5)%R).
Proof.
  intros samples. split; intros r Hr.
  - destruct (generate_post in_ranges n (generate_variant_in_ranges samples) w)
      as (_ & _ & _ & Hall).
    rewrite Forall_forall in Hall. apply (Hall r Hr).
  - destruct (tutorial_df_post n samples w) as (_ & _ & Hall).
    rewrite Forall_forall in Hall. apply (Hall r Hr).
Qed.

Lemma allele_frequency_in_range_witness :
  (forall r,
     In r (rows (fst (@Generator.generate_covid_risk_variants lcg_source 4
                        (Generator.seeded 42)))) ->
     (0.01 <= allele_frequency r < 0.5)%R)
  /\ sample_in_unit lcg_source.
Proof.
  split; [|exact lcg_samples_in_unit].
  exact (proj1 (allele_frequency_in_range lcg_source 4 (Generator.seeded 42)
                  lcg_samples_in_unit)).
Defined.

(** ** How runs of the generator compose *)

Section GeneratorRuns.
Context {RS : RandomSource}.

(** The records a loop appends do not depend on the records it starts from. *)
Lemma generate_loop_data (n : nat) :
  forall (data : list VariantRecord) (w : world),
    Generator.generate_loop n data w
    = (data ++ fst (Generator.generate_loop n [] w),
       snd (Generator.generate_loop n [] w)).
Proof.
  induction n as [|n IH]; intros data w; cbn [Generator.generate_loop].
  - unfold ret. simpl. now rewrite app_nil_r.
  - unfold bind. destruct (Generator.generate_variant w) as [v w1].
    rewrite (IH (data ++ [v])), (IH ([] ++ [v])). simpl.
    now rewrite <- app_assoc.
Qed.

Lemma generate_loop_add (n m : nat) :
  forall (data : list VariantRecord) (w : world),
    Generator.generate_loop (n + m) data w
    = Generator.generate_loop m (fst (Generator.generate_loop n data w))
                              (snd (Generator.generate_loop n data w)).
Proof.
  induction n as [|n IH]; intros data w; cbn [Nat.add Generator.generate_loop].
  - reflexivity.
  - unfold bind. destruct (Generator.generate_variant w) as [v w1]. apply IH.
Qed.

Lemma generate_rows (n : nat) (w : world) :
  rows (fst (Generator.generate_covid_risk_variants n w))
  = fst (Generator.generate_loop n [] w)
  /\ snd (Generator.generate_covid_risk_variants n w)
     = snd (Generator.generate_loop n [] w).
Proof.
  unfold Generator.generate_covid_risk_variants, bind, ret.
  destruct (Generator.generate_loop n [] w) as [data w']. split; reflexivity.
Qed.

(** One record: its float fields and the state of [numpy.random] afterwards
    depend on the state of [numpy.random] only, its other fields and the
    state of [random] afterwards on the state of [random] only. *)
Lemma generate_variant_split (w1 w2 : world) :
  (np w1 = np w2 ->
   float_fields (fst (Generator.generate_variant w1))
   = float_fields (fst (Generator.generate_variant w2))
   /\ np (snd (Generator.generate_variant w1))
      = np (snd (Generator.generate_variant w2)))
  /\ (py w1 = py w2 ->
      other_fields (fst (Generator.generate_variant w1))
      = other_fields (fst (Generator.generate_variant w2))
      /\ py (snd (Generator.generate_variant w1))
         = py (snd (Generator.generate_variant w2))).
Proof.
  destruct w1 as [p1 s1], w2 as [p2 s2].
  split; intros E; cbn [py np] in E; subst;
    unfold Generator.generate_variant, bind, ret, random_randint, random_choice,
      np_random_uniform, np_random_random, lift_py, lift_np, bind, ret;
    cbn [py np].
  - repeat match goal with
           | |- context [py_randbelow ?n ?s] =>
               destruct (py_randbelow n s); cbn [py np]
           | |- context [np_random_sample ?s] =>
               destruct (np_random_sample s); cbn [py np]
           end.
    split; reflexivity.
  - repeat match goal with
           | |- context [np_random_sample ?s] =>
               destruct (np_random_sample s); cbn [py np]
           | |- context [py_randbelow ?n ?s] =>
               destruct (py_randbelow n s); cbn [py np]
           end.
    split; reflexivity.
Qed.

Lemma generate_loop_split (n : nat) :
  forall (d1 d2 : list VariantRecord) (w1 w2 : world),
    (np w1 = np w2 -> map float_fields d1 = map float_fields d2 ->
     map float_fields (fst (Generator.generate_loop n d1 w1))
     = map float_fields (fst (Generator.generate_loop n d2 w2))
     /\ np (snd (Generator.generate_loop n d1 w1))
        = np (snd (Generator.generate_loop n d2 w2)))
    /\ (py w1 = py w2 -> map other_fields d1 = map other_fields d2 ->
        map other_fields (fst (Generator.generate_loop n d1 w1))
        = map other_fields (fst (Generator.generate_loop n d2 w2))
        /\ py (snd (Generator.generate_loop n d1 w1))
           = py (snd (Generator.generate_loop n d2 w2))).
Proof.
  induction n as [|n IH]; intros d1 d2 w1 w2; cbn [Generator.generate_loop].
  - unfold ret. simpl. split; auto.
  - unfold bind.
    destruct (generate_variant_split w1 w2) as (Hnp & Hpy).
    destruct (Generator.generate_variant w1) as [v1 w1'].
    destruct (Generator.generate_variant w2) as [v2 w2'].
    simpl in Hnp, Hpy.
    destruct (IH (d1 ++ [v1]) (d2 ++ [v2]) w1' w2') as (IHnp & IHpy).
    split; intros Ew Ed.
    + destruct (Hnp Ew) as (Hv & Hs). apply IHnp; [exact Hs|].
      rewrite !map_app, Ed. simpl. now rewrite Hv.
    + destruct (Hpy Ew) as (Hv & Hs). apply IHpy; [exact Hs|].
      rewrite !map_app, Ed. simpl. now rewrite Hv.
Qed.

Lemma numpy_only_ret {A : Type} (a : A) : numpy_only (ret a).
Proof. intros w1 w2 E. split; [reflexivity|exact E]. Qed.

Lemma numpy_only_bind {A B : Type} (c : Rand A) (k : A -> Rand B) :
  numpy_only c -> (forall a, numpy_only (k a)) -> numpy_only (x <- c ;; k x).
Proof.
  intros Hc Hk w1 w2 E. unfold bind. destruct (Hc w1 w2 E) as (Ha & Hs).
  destruct (c w1) as [a1 w1'], (c w2) as [a2 w2']. simpl in Ha, Hs. subst a2.
  apply Hk. exact Hs.
Qed.

Lemma numpy_only_lift {A : Type} (f : np_state -> A * np_state) :
  numpy_only (lift_np f).
Proof.
  intros w1 w2 E. unfold lift_np. rewrite E.
  destruct (f (np w2)) as [a s]. split; reflexivity.
Qed.

Lemma numpy_only_draws {A : Type} (c : Rand A) (n : nat) :
  numpy_only c -> numpy_only (draws n c).
Proof.
  intros Hc. induction n as [|n IH]; cbn [draws].
  - apply numpy_only_ret.
  - apply numpy_only_bind; [exact Hc|]. intros x.
    apply numpy_only_bind; [exact IH|]. intros xs. apply numpy_only_ret.
Qed.

Lemma numpy_only_tutorial (n : nat) : numpy_only (Tutorial.df n).
Proof.
  unfold Tutorial.df, Tutorial.data, np_random_choice, np_random_randint,
    np_random_uniform, np_random_random.
  repeat first
    [ apply numpy_only_ret
    | apply numpy_only_lift
    | apply numpy_only_draws
    | apply numpy_only_bind; [|intros ?] ].
Qed.

End GeneratorRuns.

(** X4.  A run for n + m records is a run for n records followed by a run
    for m records from the state the first one leaves: its table is the
    first table followed by the second, so a longer run only appends rows to
    a shorter one from the same seed. *)
Theorem generator_runs_compose (RS : RandomSource) (n m : nat) (w : world) :
  let first := Generator.generate_covid_risk_variants n w in
  let second := Generator.generate_covid_risk_variants m (snd first) in
  rows (fst (Generator.generate_covid_risk_variants (n + m) w))
  = rows (fst first) ++ rows (fst second)
  /\ snd (Generator.generate_covid_risk_variants (n + m) w) = snd second.
Proof.
  intros first second. subst first second.
  destruct (generate_rows (n + m) w) as (-> & ->).
  destruct (generate_rows n w) as (-> & ->).
  destruct (generate_rows m (snd (Generator.generate_loop n [] w))) as (-> & ->).
  rewrite generate_loop_add, generate_loop_data. split; reflexivity.
Qed.

(** X5.  In the table of [generate_covid_risk_variants] the columns
    [p_value], [allele_frequency] and [odds_ratio] depend on the state of
    [numpy.random] only, and every other column on the state of Python's
    [random] only: two runs that agree on one generator agree on its
    columns, whatever the state of the other. *)
Theorem generator_columns_by_source (RS : RandomSource) (n : nat)
    (w1 w2 : world) :
  (np w1 = np w2 ->
   map float_fields (rows (fst (Generator.generate_covid_risk_variants n w1)))
   = map float_fields (rows (fst (Generator.generate_covid_risk_variants n w2))))
  /\ (py w1 = py w2 ->
      map other_fields (rows (fst (Generator.generate_covid_risk_variants n w1)))
      = map other_fields (rows (fst (Generator.generate_covid_risk_variants n w2)))).
Proof.
  destruct (generate_rows n w1) as (-> & _).
  destruct (generate_rows n w2) as (-> & _).
  destruct (generate_loop_split n [] [] w1 w2) as (Hnp & Hpy).
  split; intros E; [apply Hnp|apply Hpy]; auto.
Qed.

Lemma generator_columns_by_source_witness :
  map float_fields
      (rows (fst (@Generator.generate_covid_risk_variants lcg_source 3
                    (@mkWorld lcg_source 7%Z 42%Z))))
  = map float_fields
        (rows (fst (@Generator.generate_covid_risk_variants lcg_source 3
                      (@mkWorld lcg_source 42%Z 42%Z)))).
Proof.
  apply (proj1 (generator_columns_by_source lcg_source 3
                  (@mkWorld lcg_source 7%Z 42%Z)
                  (@mkWorld lcg_source 42%Z 42%Z))).
  reflexivity.
Defined.

(** X6.  The table of [test_tutorial.py] draws from [numpy.random] only:
    two runs that start from the same state of [numpy.random] build the same
    table, whatever the state of Python's [random], which the script does
    not seed. *)
Theorem tutorial_table_numpy_only (RS : RandomSource) (n : nat)
    (w1 w2 : world) :
  np w1 = np w2 -> fst (Tutorial.df n w1) = fst (Tutorial.df n w2).
Proof.
  intros E. exact (proj1 (numpy_only_tutorial n w1 w2 E)).
Qed.

Lemma tutorial_table_numpy_only_witness :
  fst (@Tutorial.df lcg_source 109 (@mkWorld lcg_source 7%Z 42%Z))
  = fst (@Tutorial.df lcg_source 109 (@mkWorld lcg_source 42%Z 42%Z)).
Proof.
  apply (tutorial_table_numpy_only lcg_source 109). reflexivity.
Defined.

(** ** Looking genes up in the summary *)

Lemma lookup_In {A : Type} (l : list (string * A)) (k : string) (v : A) :
  NoDup (map fst l) -> (lookup k l = Some v <-> In (k, v) l).
Proof.
  induction l as [|[k' v'] t IH]; simpl; intros Hnd.
  - split; [discriminate|intros []].
  - inversion Hnd as [|? ? Hnotin Hnd']; subst.
    destruct (String.eqb_spec k' k) as [->|Hne].
    + split.
      * intros [= ->]. now left.
      * intros [[= ->]|Hin]; [reflexivity|].
        exfalso. apply Hnotin. apply (in_map fst) in Hin. exact Hin.
    + rewrite (IH Hnd'). split; [auto|]. intros [[= -> ->]|Hin]; [congruence|auto].
Qed.

Lemma lookup_None {A : Type} (l : list (string * A)) (k : string) :
  lookup k l = None <-> ~ In k (map fst l).
Proof.
  induction l as [|[k' v'] t IH]; simpl.
  - split; [intros _ []|reflexivity].
  - destruct (String.eqb_spec k' k) as [->|Hne].
    + split; [discriminate|]. intros H. exfalso. apply H. now left.
    + rewrite IH. split; [intros H [E|Hin]; [congruence|auto]|auto].
Qed.

Lemma gene_summary_keys_NoDup (cap : option nat) (df : list VariantRecord) :
  NoDup (map fst (gene_summary cap df)).
Proof. rewrite summary_keys. apply group_keys_NoDup. Qed.

(** X7.  Looking a gene up in the gene summary gives the aggregates of
    exactly the rows of that gene, with a variant count of at least 1, when
    the gene occurs in the table, and nothing when it does not. *)
Theorem gene_summary_lookup (cap : option nat) (df : list VariantRecord)
    (gene : string) :
  (In gene (map host_gene df) ->
   exists s, lookup gene (gene_summary cap df) = Some s
             /\ agg_group cap (gene_rows df gene) = Some s
             /\ variant_count s = List.length (gene_rows df gene)
             /\ 1 <= variant_count s)
  /\ (~ In gene (map host_gene df) -> lookup gene (gene_summary cap df) = None).
Proof.
  split.
  - intros Hin.
    destruct (agg_group_nonempty cap (gene_rows df gene)) as (s & Hs).
    { now apply gene_rows_nonempty. }
    exists s. split; [|split; [exact Hs|]].
    + apply lookup_In; [apply gene_summary_keys_NoDup|].
      apply gene_summary_In. auto.
    + destruct (agg_group_fields _ _ _ Hs) as (Hc & _). split; [exact Hc|].
      rewrite Hc. pose proof (gene_rows_nonempty df gene Hin) as Hne.
      destruct (gene_rows df gene); [congruence|simpl; lia].
  - intros Hnot. apply lookup_None. rewrite summary_keys, group_keys_In. exact Hnot.
Qed.

Lemma gene_summary_lookup_witness :
  (exists s, lookup "ACE2" (gene_summary (Some 3) fixture3) = Some s
             /\ variant_count s = 2)
  /\ lookup "IL6" (gene_summary (Some 3) fixture3) = None.
Proof.
  destruct (gene_summary_lookup (Some 3) fixture3 "ACE2") as (Hin & _).
  destruct (gene_summary_lookup (Some 3) fixture3 "IL6") as (_ & Hout).
  split.
  - destruct Hin as (s & Hl & _ & Hc & _); [simpl; auto|].
    exists s. split; [exact Hl|exact Hc].
  - apply Hout. simpl. intros [E|[E|[E|[]]]]; discriminate.
Defined.

(** X8.  The rows of the gene summary come in ascending order of gene
    symbol, the order [groupby] gives them. *)
Theorem gene_summary_sorted (cap : option nat) (df : list VariantRecord) :
  Sorted (fun a b => String.leb a b = true) (map fst (gene_summary cap df)).
Proof.
  rewrite summary_keys. unfold group_keys.
  apply StringSort.Sorted_sort.
Qed.

(** ** More on the risk score *)





(** X11.  With the rounding of float64, between two genes with the same
    positive minimum p-value and the same mean odds ratio, the gene with at
    least as many variants has a risk score at least as large. *)
Theorem risk_score_monotone_in_count (FA : FloatArith)
    (g1 g2 : list VariantRecord) (m : R) :
  float_contract FA ->
  Series.min (map p_value g1) = Some m ->
  Series.min (map p_value g2) = Some m ->
  (0 < m)%R ->
  mean_fl (map odds_ratio g1) = mean_fl (map odds_ratio g2) ->
  List.length g1 <= List.length g2 ->
  exists r1 r2,
    calculate_risk_score_fl g1 = Some r1
    /\ calculate_risk_score_fl g2 = Some r2
    /\ (r1 <= r2)%R.
Proof.
  intros HF Hm1 Hm2 Hp Hmean Hlen.
  rewrite (calculate_risk_score_fl_value g1 m Hm1 Hp).
  rewrite (calculate_risk_score_fl_value g2 m Hm2 Hp).
  do 2 eexists. split; [reflexivity|]. split; [reflexivity|].
  rewrite Hmean. apply (risk_line_monotone _ _ _ _ _ _ HF); try lra.
  now apply le_INR.
Qed.

Lemma risk_score_monotone_in_count_witness :
  exists r1 r2,
    @calculate_risk_score_fl exact_arith [variant "ACE2" 1e-6 2 "ARDS"] = Some r1
    /\ @calculate_risk_score_fl exact_arith
         [variant "TYK2" 1e-6 2 "ARDS"; variant "TYK2" 2e-6 2 "ARDS"] = Some r2
    /\ (r1 <= r2)%R.
Proof.
  apply (risk_score_monotone_in_count exact_arith
           [variant "ACE2" 1e-6 2 "ARDS"]
           [variant "TYK2" 1e-6 2 "ARDS"; variant "TYK2" 2e-6 2 "ARDS"]
           1e-6 exact_contract).
  - reflexivity.
  - simpl. f_equal. unfold Rmin. destruct (Rle_dec 1e-6 2e-6); [reflexivity|lra].
  - lra.
  - simpl. unfold arithmetic_mean. simpl. lra.
  - simpl. lia.
Defined.

(** ** More on the enrichment score *)

Lemma common_genes_length_le (genes u1 u2 : list string) :
  incl u1 u2 ->
  List.length (common_genes genes u1) <= List.length (common_genes genes u2).
Proof.
  intros Hi. apply NoDup_incl_length; [apply common_genes_NoDup|].
  intros g Hg. apply common_genes_In in Hg. apply common_genes_In.
  split; [tauto|apply Hi; tauto].
Qed.

Lemma common_genes_all (genes unique_genes : list string) :
  NoDup genes -> incl genes unique_genes ->
  List.length (common_genes genes unique_genes) = List.length genes.
Proof.
  intros Hnd Hi. apply Permutation_length.
  apply NoDup_Permutation; [apply common_genes_NoDup|exact Hnd|].
  intros g. rewrite common_genes_In. split; [tauto|]. intros H. split; auto.
Qed.

Lemma common_genes_none (genes unique_genes : list string) :
  (forall g, In g genes -> ~ In g unique_genes) ->
  common_genes genes unique_genes = [].
Proof.
  intros H. destruct (common_genes genes unique_genes) as [|g t] eqn:E;
    [reflexivity|].
  assert (Hg : In g (common_genes genes unique_genes)) by (rewrite E; now left).
  apply common_genes_In in Hg. exfalso. apply (H g); tauto.
Qed.

Lemma duplicate_shortens (genes : list string) :
  ~ NoDup genes -> List.length (py_set genes) < List.length genes.
Proof.
  intros Hdup.
  destruct (Nat.lt_ge_cases (List.length (py_set genes)) (List.length genes))
    as [Hlt|Hge]; [exact Hlt|].
  exfalso. apply Hdup.
  apply (NoDup_incl_NoDup (py_set_NoDup genes) Hge).
  intros g Hg. now apply py_set_In.
Qed.

Lemma inject_nat_pos (n : nat) : 0 < n -> (0 < inject_Z (Z.of_nat n))%Q.
Proof.
  intros H. change 0%Q with (inject_Z 0). rewrite <- Zlt_Qlt. lia.
Qed.

(** X13.  For a non-empty gene list without duplicates, all of whose genes
    are among the genes of the dataset, the scorer returns an entry whose
    enrichment score is 1 and whose overlap equals the total; for a gene list
    no gene of which is in the dataset, the overlap and the score are 0. *)
Theorem enrichment_contained_and_disjoint (genes unique_genes : list string) :
  (genes <> [] -> NoDup genes -> incl genes unique_genes ->
   exists pe, enrichment_entry genes unique_genes = Some pe
              /\ overlap pe = total pe
              /\ (enrichment_score pe == 1)%Q)
  /\ ((forall g, In g genes -> ~ In g unique_genes) ->
      exists pe, enrichment_entry genes unique_genes = Some pe
                 /\ overlap pe = 0
                 /\ (enrichment_score pe == 0)%Q).
Proof.
  split.
  - intros Hne Hnd Hi. exists (entry_value genes unique_genes).
    split; [apply enrichment_entry_returns|].
    pose proof (common_genes_all genes unique_genes Hnd Hi) as Hall.
    split; [exact Hall|].
    rewrite (enrichment_score_nonempty _ _ Hne), Hall.
    apply Qmult_inv_r. intros E.
    assert (Hp : (0 < inject_Z (Z.of_nat (List.length genes)))%Q).
    { apply inject_nat_pos. destruct genes; [congruence|simpl; lia]. }
    rewrite E in Hp. discriminate.
  - intros Hdis. exists (entry_value genes unique_genes).
    split; [apply enrichment_entry_returns|].
    pose proof (common_genes_none genes unique_genes Hdis) as Hnone.
    unfold entry_value. simpl. rewrite Hnone. split; [reflexivity|].
    destruct (List.length genes); reflexivity.
Qed.

Lemma enrichment_contained_and_disjoint_witness :
  (exists pe,
     enrichment_entry ["ACE2"; "TYK2"] (Series.unique (map host_gene fixture3))
     = Some pe
     /\ overlap pe = total pe
     /\ (enrichment_score pe == 1)%Q)
  /\ (exists pe,
        enrichment_entry ["IL6"; "TNF"] (Series.unique (map host_gene fixture3))
        = Some pe
        /\ overlap pe = 0
        /\ (enrichment_score pe == 0)%Q).
Proof.
  split.
  - apply (proj1 (enrichment_contained_and_disjoint ["ACE2"; "TYK2"]
                    (Series.unique (map host_gene fixture3)))).
    + discriminate.
    + apply NoDup_by_nodup. reflexivity.
    + intros g [<-|[<-|[]]]; simpl; auto.
  - apply (proj2 (enrichment_contained_and_disjoint ["IL6"; "TNF"]
                    (Series.unique (map host_gene fixture3)))).
    intros g [<-|[<-|[]]]; simpl; intros [E|[E|[]]]; discriminate.
Defined.

(** X14.  The score divides by the length of the gene list, so a gene list
    with a repeated gene scores strictly below 1, even when every gene of it
    is in the dataset. *)
Theorem enrichment_duplicate_below_one (genes unique_genes : list string) :
  ~ NoDup genes ->
  exists pe, enrichment_entry genes unique_genes = Some pe
             /\ overlap pe < total pe
             /\ (enrichment_score pe < 1)%Q.
Proof.
  intros Hdup. exists (entry_value genes unique_genes).
  split; [apply enrichment_entry_returns|].
  pose proof (duplicate_shortens genes Hdup) as Hs.
  pose proof (overlap_le_set genes unique_genes) as Ho.
  assert (Hlt : overlap (entry_value genes unique_genes)
                < List.length genes) by lia.
  split; [exact Hlt|].
  assert (Hne : genes <> []) by (intros ->; apply Hdup; constructor).
  rewrite (enrichment_score_nonempty _ _ Hne).
  apply Qlt_shift_div_r.
  - apply inject_nat_pos. lia.
  - rewrite Qmult_1_l, <- Zlt_Qlt. simpl in Hlt. lia.
Qed.

Lemma enrichment_duplicate_below_one_witness :
  (exists pe,
     enrichment_entry ["ACE2"; "ACE2"] (Series.unique (map host_gene fixture3))
     = Some pe
     /\ overlap pe < total pe
     /\ (enrichment_score pe < 1)%Q)
  /\ incl ["ACE2"; "ACE2"] (Series.unique (map host_gene fixture3)).
Proof.
  split.
  - apply (enrichment_duplicate_below_one ["ACE2"; "ACE2"]).
    intros H. inversion H as [|? ? Hnotin _]. apply Hnotin. now left.
  - intros g [<-|[<-|[]]]; simpl; auto.
Defined.

(** X15.  Enrichment grows with the dataset: when every gene of one dataset
    is a gene of another, the overlap and the enrichment score of a pathway
    against the first are at most those against the second. *)
Theorem enrichment_monotone (genes u1 u2 : list string) :
  incl u1 u2 ->
  exists pe1 pe2,
    enrichment_entry genes u1 = Some pe1
    /\ enrichment_entry genes u2 = Some pe2
    /\ overlap pe1 <= overlap pe2
    /\ (enrichment_score pe1 <= enrichment_score pe2)%Q.
Proof.
  intros Hi. exists (entry_value genes u1), (entry_value genes u2).
  split; [apply enrichment_entry_returns|].
  split; [apply enrichment_entry_returns|].
  pose proof (common_genes_length_le genes u1 u2 Hi) as Hle.
  split; [exact Hle|].
  unfold entry_value. simpl.
  destruct (List.length genes) as [|n] eqn:En; [apply Qle_refl|].
  unfold Qdiv. apply Qmult_le_compat_r.
  - rewrite <- Zle_Qle. lia.
  - apply Qlt_le_weak, Qinv_lt_0_compat, inject_nat_pos. lia.
Qed.

Lemma enrichment_monotone_witness :
  (exists pe1 pe2,
     enrichment_entry ["ACE2"; "TMPRSS2"] ["ACE2"] = Some pe1
     /\ enrichment_entry ["ACE2"; "TMPRSS2"] ["TMPRSS2"; "ACE2"] = Some pe2
     /\ overlap pe1 <= overlap pe2
     /\ (enrichment_score pe1 <= enrichment_score pe2)%Q)
  /\ incl ["ACE2"] ["TMPRSS2"; "ACE2"].
Proof.
  split.
  - apply (enrichment_monotone ["ACE2"; "TMPRSS2"] ["ACE2"] ["TMPRSS2"; "ACE2"]).
    intros g [<-|[]]; simpl; auto.
  - intros g [<-|[]]; simpl; auto.
Defined.

(** ** More on the interaction graph *)

Lemma add_edge_weights (P : R -> Prop) (u v : string) (c : R) (G : Graph) :
  Forall (fun e => P (snd e)) (edges G) -> P c ->
  Forall (fun e => P (snd e)) (edges (add_edge u v c G)).
Proof.
  intros HG Hc. unfold add_edge, has_edge. rewrite !add_node_edges.
  destruct (existsb (joins u v) (edges G)); simpl.
  - apply Forall_map. apply Forall_impl with (2 := HG).
    intros e He. destruct (joins u v e); [exact Hc|exact He].
  - apply Forall_app. split; [exact HG|]. constructor; [exact Hc|constructor].
Qed.

Section NetworkMore.
Context {RS : RandomSource}.

(** The builder as one loop over the index pairs, from the graph of nodes. *)
Lemma network_shape (genes : list string) (p : R) (w : world) :
  let G0 := fold_left (fun G gene => add_node gene G) genes empty_graph in
  let G := fst (create_test_network genes p w) in
  G = fst (for_each (consider p) (index_pairs genes) G0 w)
  /\ edges G0 = []
  /\ NoDup (nodes G)
  /\ (forall g, In g (nodes G) <-> In g genes)
  /\ incl (edge_pairs G) (index_pairs genes).
Proof.
  intros G0 G.
  destruct (add_nodes_spec genes empty_graph) as (He & Hnd0 & Hin0).
  fold G0 in He, Hnd0, Hin0. simpl in He, Hnd0, Hin0.
  assert (Hloop : G = fst (for_each (consider p) (index_pairs genes) G0 w)).
  { unfold G, create_test_network. fold G0. now rewrite outer_loop_for_each. }
  assert (Hpost : nodes G = nodes G0
                  /\ incl (edge_pairs G) (edge_pairs G0 ++ index_pairs genes)).
  { rewrite Hloop. apply loops_edges_among_pairs.
    intros a b Hab. apply index_pairs_In in Hab. rewrite !Hin0. tauto. }
  destruct Hpost as (Hn & Hi).
  assert (E0 : edge_pairs G0 = []) by (unfold edge_pairs; now rewrite He).
  rewrite E0 in Hi. simpl in Hi.
  split; [exact Hloop|]. split; [exact He|].
  split; [rewrite Hn; apply Hnd0; constructor|].
  split; [intros g; rewrite Hn, Hin0; tauto|exact Hi].
Qed.

(** Each pair met adds at most one edge. *)
Lemma loops_edge_count (p : R) (l : list (string * string)) (G : Graph) :
  post (for_each (consider p) l G)
       (fun G' => List.length (edge_pairs G')
                  <= List.length (edge_pairs G) + List.length l).
Proof.
  apply (for_each_invariant (consider p)
           (fun done G' => List.length (edge_pairs G')
                           <= List.length (edge_pairs G) + List.length done)).
  - intros done [a b] G1 _ HI w.
    destruct (consider_cases p a b G1 w) as [->|(c & ->)];
      rewrite ?add_edge_pairs, length_app; simpl; [lia|].
    destruct (has_edge a b G1); rewrite ?length_app; simpl; lia.
  - simpl. lia.
Qed.

Lemma consider_weight (p : R) (gene1 gene2 : string) (G : Graph) :
  sample_in_unit RS ->
  post (consider p (gene1, gene2) G)
       (fun G' => G' = G
                  \/ exists c : R, (0.4 <= c < 0.95)%R
                                   /\ G' = add_edge gene1 gene2 c G).
Proof.
  intros samples. unfold consider.
  eapply post_bind; [apply post_any|]. intros u _.
  destruct (Rltb u p).
  - draw (uniform_in_range samples 0.4 0.95 ltac:(lra)). intros c Hc.
    apply post_ret. right. eauto.
  - apply post_ret. now left.
Qed.

Lemma loops_weights (p : R) (l : list (string * string)) (G : Graph) :
  sample_in_unit RS ->
  Forall (fun e => 0.4 <= snd e < 0.95)%R (edges G) ->
  post (for_each (consider p) l G)
       (fun G' => Forall (fun e => 0.4 <= snd e < 0.95)%R (edges G')).
Proof.
  intros samples HG.
  apply (for_each_invariant (consider p)
           (fun _ G' => Forall (fun e => 0.4 <= snd e < 0.95)%R (edges G')));
    [|exact HG].
  intros done [a b] G1 _ HI w.
  destruct (consider_weight p a b G1 samples w) as [->|(c & Hc & ->)];
    [exact HI|].
  now apply (add_edge_weights (fun x => 0.4 <= x < 0.95)%R).
Qed.

End NetworkMore.

Lemma half_monotone (k n : nat) : k <= n -> k * (k - 1) / 2 <= n * (n - 1) / 2.
Proof.
  intros H. apply Nat.Div0.div_le_mono. apply Nat.mul_le_mono; lia.
Qed.

(** X16.  A sample being a number of [0, 1), every edge of the graph the
    builder returns carries a weight of the half-open interval
    [0.4, 0.95), for any gene sequence and any probability. *)
Theorem edge_weights_in_range (RS : RandomSource) (genes : list string)
    (p : R) (w : world) :
  sample_in_unit RS ->
  forall u v c, In (u, v, c) (edges (fst (create_test_network genes p w))) ->
    (0.4 <= c < 0.95)%R.
Proof.
  intros samples u v c Hin.
  destruct (network_shape genes p w) as (Hloop & He & _).
  rewrite Hloop in Hin.
  pose proof (loops_weights p (index_pairs genes) _ samples
                ltac:(rewrite He; constructor) w) as Hall.
  rewrite Forall_forall in Hall. apply (Hall _ Hin).
Qed.

Lemma edge_weights_in_range_witness :
  sample_in_unit lcg_source
  /\ forall u v c,
       In (u, v, c)
          (edges (fst (@create_test_network lcg_source ["ACE2"; "TYK2"; "IL6"] 0.3
                         (Generator.seeded 42)))) ->
       (0.4 <= c < 0.95)%R.
Proof.
  split; [exact lcg_samples_in_unit|].
  exact (edge_weights_in_range lcg_source ["ACE2"; "TYK2"; "IL6"] 0.3
           (Generator.seeded 42) lcg_samples_in_unit).
Defined.

(** X17.  For any sequence of k genes, any probability and any random
    source, the graph the builder returns has at most k nodes and at most
    k*(k-1)/2 edges. *)
Theorem network_size_bounds (RS : RandomSource) (genes : list string)
    (p : R) (w : world) :
  let G := fst (create_test_network genes p w) in
  let k := List.length genes in
  number_of_nodes G <= k /\ number_of_edges G <= k * (k - 1) / 2.
Proof.
  intros G k.
  destruct (network_shape genes p w) as (Hloop & He & Hnd & Hin & _).
  fold G in Hloop, Hnd, Hin. split.
  - unfold number_of_nodes. apply NoDup_incl_length; [exact Hnd|].
    intros g Hg. now apply Hin.
  - rewrite number_of_edges_pairs, Hloop.
    pose proof (loops_edge_count p (index_pairs genes)
                  (fold_left (fun G gene => add_node gene G) genes empty_graph) w)
      as Hc.
    simpl in Hc. unfold edge_pairs at 2 in Hc. rewrite He in Hc. simpl in Hc.
    rewrite (half_edge_count k (List.length (index_pairs genes))
               (index_pairs_length genes)) in Hc.
    exact Hc.
Qed.

(** ** From the sorted summary to the network *)

Lemma StronglySorted_impl {A : Type} (R1 R2 : A -> A -> Prop) (l : list A) :
  (forall a b, R1 a b -> R2 a b) -> StronglySorted R1 l -> StronglySorted R2 l.
Proof.
  intros H. induction 1 as [|a t Ht IH Hall]; constructor; [exact IH|].
  apply Forall_impl with (2 := Hall). apply H.
Qed.

Lemma merge_sorts_by_count : sorts_by_count merge_frame_sort.
Proof.
  intros l. simpl. split.
  - symmetry. apply CountSort.Permuted_sort.
  - apply StronglySorted_impl with (R1 := fun a b => is_true (CountOrder.leb a b)).
    + intros a b H. apply Nat.leb_le in H. exact H.
    + apply CountSort.StronglySorted_sort.
      intros a b c Hab Hbc. unfold CountOrder.leb, is_true in *.
      apply Nat.leb_le in Hab, Hbc. apply Nat.leb_le. lia.
Qed.

Lemma NoDup_firstn {A : Type} (n : nat) (l : list A) :
  NoDup l -> NoDup (firstn n l).
Proof.
  intros H. rewrite <- (firstn_skipn n l) in H.
  now apply NoDup_app_remove_r in H.
Qed.

Lemma In_firstn {A : Type} (n : nat) (l : list A) (x : A) :
  In x (firstn n l) -> In x l.
Proof.
  intros H. rewrite <- (firstn_skipn n l). apply in_app_iff. now left.
Qed.

Section PipelineProps.
Context {RS : RandomSource} {FS : FrameSort}.
Hypothesis sorted : sorts_by_count FS.

Lemma sorted_summary_perm (df : list VariantRecord) :
  Permutation (sorted_gene_summary df) (gene_summary None df).
Proof. apply sorted. Qed.

Lemma top_genes_NoDup (df : list VariantRecord) : NoDup (top_genes_list df).
Proof.
  unfold top_genes_list. rewrite <- firstn_map. apply NoDup_firstn.
  eapply Permutation_NoDup.
  - symmetry. apply Permutation_map, sorted_summary_perm.
  - apply gene_summary_keys_NoDup.
Qed.

Lemma top_genes_In (df : list VariantRecord) (g : string) :
  In g (top_genes_list df) -> In g (map host_gene df).
Proof.
  unfold top_genes_list. rewrite <- firstn_map. intros H.
  apply In_firstn in H. apply group_keys_In.
  rewrite <- (summary_keys None df).
  eapply Permutation_in; [apply Permutation_map, sorted_summary_perm|exact H].
Qed.

Lemma top_genes_length (df : list VariantRecord) :
  List.length (top_genes_list df) = Nat.min 15 (List.length (group_keys df)).
Proof.
  unfold top_genes_list. rewrite length_map, length_firstn.
  rewrite (Permutation_length (sorted_summary_perm df)).
  rewrite <- (summary_keys None df), length_map. reflexivity.
Qed.

End PipelineProps.

(** X18.  The sort returning the same rows in descending order of count:
    the list of top genes handed to the network builder has no duplicate,
    holds the 15 first genes of the sorted summary, or all of them when there
    are fewer, and only genes of the table; so the network of the tutorial
    has exactly these genes as nodes, no edge from a gene to itself, and at
    most 105 edges. *)
Theorem ppi_network_of_top_genes (RS : RandomSource) (FS : FrameSort)
    (df : list VariantRecord) (w : world) :
  sorts_by_count FS ->
  let top := top_genes_list df in
  let G := fst (ppi_network df w) in
  NoDup top
  /\ List.length top = Nat.min 15 (List.length (group_keys df))
  /\ (forall g, In g top -> exists r, In r df /\ host_gene r = g)
  /\ (forall g, In g (nodes G) <-> In g top)
  /\ (forall a b, In (a, b) (edge_pairs G) -> a <> b)
  /\ number_of_edges G <= 105.
Proof.
  intros sorted top G.
  pose proof (top_genes_NoDup sorted df) as Hnd. fold top in Hnd.
  pose proof (top_genes_length sorted df) as Hlen. fold top in Hlen.
  destruct (network_shape top 0.3 w) as (Hloop & He & _ & Hin & Hi).
  change (fst (create_test_network top 0.3 w)) with G in Hloop, Hin, Hi.
  split; [exact Hnd|]. split; [exact Hlen|]. split; [|split; [exact Hin|split]].
  - intros g Hg. apply (top_genes_In sorted) in Hg. apply in_map_iff in Hg.
    destruct Hg as (r & E & Hr). eauto.
  - intros a b Hab. apply (index_pairs_distinct_ends top a b Hnd). now apply Hi.
  - rewrite number_of_edges_pairs, Hloop.
    pose proof (loops_edge_count 0.3 (index_pairs top)
                  (fold_left (fun G gene => add_node gene G) top empty_graph) w)
      as Hc.
    simpl in Hc. unfold edge_pairs at 2 in Hc. rewrite He in Hc. simpl in Hc.
    rewrite (half_edge_count (List.length top) (List.length (index_pairs top))
               (index_pairs_length top)) in Hc.
    etransitivity; [exact Hc|].
    change 105 with (15 * (15 - 1) / 2). apply half_monotone. lia.
Qed.

Lemma ppi_network_of_top_genes_witness :
  NoDup (@top_genes_list merge_frame_sort fixture3)
  /\ number_of_edges
       (fst (@ppi_network lcg_source merge_frame_sort fixture3
               (Generator.seeded 42))) <= 105.
Proof.
  destruct (ppi_network_of_top_genes lcg_source merge_frame_sort fixture3
              (Generator.seeded 42) merge_sorts_by_count)
    as (Hnd & _ & _ & _ & _ & He).
  split; [exact Hnd|exact He].
Defined.

(** X19.  The sort returning the same rows in descending order of count:
    the top gene the tutorial prints is a gene of the summary, with its
    variant count, and no gene of the summary has more variants; the lookup
    of the top gene fails exactly on an empty table. *)
Theorem top_gene_has_most_variants (FS : FrameSort) (df : list VariantRecord) :
  sorts_by_count FS ->
  (top_gene df = None <-> df = [])
  /\ (forall gene count, top_gene df = Some (gene, count) ->
        (exists s, In (gene, s) (gene_summary None df)
                   /\ variant_count s = count)
        /\ (forall gene' s', In (gene', s') (gene_summary None df) ->
              variant_count s' <= count)).
Proof.
  intros sorted. destruct (sorted (gene_summary None df)) as (Hperm & Hsort).
  unfold top_gene, sorted_gene_summary.
  destruct (sort_values_descending (gene_summary None df)) as [|[g s] t] eqn:E.
  - split; [|discriminate]. split; [intros _|reflexivity].
    apply Permutation_nil in Hperm.
    assert (Hk : group_keys df = []) by (rewrite <- (summary_keys None df), Hperm; reflexivity).
    destruct df as [|r rest]; [reflexivity|].
    assert (Hin : In (host_gene r) (group_keys (r :: rest)))
      by (apply group_keys_In; now left).
    rewrite Hk in Hin. destruct Hin.
  - split.
    + split; [discriminate|]. intros ->.
      apply Permutation_sym, Permutation_nil in Hperm. discriminate.
    + intros gene count [= <- <-]. split.
      * exists s. split; [|reflexivity].
        apply (Permutation_in _ Hperm). now left.
      * intros gene' s' Hin.
        apply (Permutation_in _ (Permutation_sym Hperm)) in Hin.
        inversion Hsort as [|? ? _ Hall]; subst.
        destruct Hin as [[= <- <-]|Hin]; [lia|].
        rewrite Forall_forall in Hall. apply (Hall _ Hin).
Qed.

Lemma top_gene_has_most_variants_witness :
  @top_gene merge_frame_sort fixture3 = Some ("ACE2", 2)
  /\ (@top_gene merge_frame_sort [] = None <-> @nil VariantRecord = []).
Proof.
  split; [reflexivity|].
  exact (proj1 (top_gene_has_most_variants merge_frame_sort []
                  merge_sorts_by_count)).
Defined.

(** ** More on the metrics step *)

Lemma max_from_spec (d : list (string * R)) : forall best : string * R,
  let top := max_from best d in
  (top = best \/ In top d)
  /\ (snd best <= snd top)%R
  /\ (forall kv, In kv d -> (snd kv <= snd top)%R).
Proof.
  induction d as [|[k v] t IH]; intros best; simpl.
  - split; [now left|]. split; [lra|]. intros kv [].
  - unfold Rltb. destruct (Rlt_dec (snd best) v) as [Hlt|Hge].
    + destruct (IH (k, v)) as (Hin & Hle & Hall). simpl in Hle.
      split; [destruct Hin as [->|Hin]; auto|]. split; [lra|].
      intros kv [<-|Hkv]; [exact Hle|now apply Hall].
    + destruct (IH best) as (Hin & Hle & Hall).
      split; [destruct Hin as [->|Hin]; auto|]. split; [exact Hle|].
      intros kv [<-|Hkv]; [simpl; lra|now apply Hall].
Qed.

(** X20.  When step 5 reports metrics, the graph has an edge, the two
    dicts are the ones networkx returned, and the top hub is a node of the
    degree-centrality dict whose score no other node exceeds. *)
Theorem top_hub_has_largest_degree (NX : Centrality) (G : Graph)
    (t : list nx_call) (hub : string) (score : R) (dc bc : list (string * R)) :
  network_metrics G = (t, Some (MetricsCalculated hub score dc bc)) ->
  0 < number_of_edges G
  /\ nx_degree_centrality G = Some dc
  /\ nx_betweenness_centrality G = Some bc
  /\ In (hub, score) dc
  /\ (forall k v, In (k, v) dc -> (v <= score)%R).
Proof.
  unfold network_metrics.
  destruct (Nat.ltb_spec 0 (number_of_edges G)) as [Hpos|Hz]; [|discriminate].
  unfold call_degree_centrality, call_betweenness_centrality, lbind, lret.
  destruct (nx_degree_centrality G) as [dc'|]; [|discriminate].
  destruct (nx_betweenness_centrality G) as [bc'|]; [|discriminate].
  destruct (max_key dc') as [top|] eqn:Em; [|discriminate].
  simpl. intros [= _ <- <- <- <-].
  split; [exact Hpos|]. split; [reflexivity|]. split; [reflexivity|].
  destruct dc' as [|kv rest]; [discriminate|]. simpl in Em. injection Em as <-.
  destruct (max_from_spec rest kv) as (Hin & Hle & Hall). split.
  - rewrite <- surjective_pairing. destruct Hin as [->|Hin]; [now left|now right].
  - intros k v [->|Hkv]; [exact Hle|apply (Hall _ Hkv)].
Qed.

Lemma top_hub_has_largest_degree_witness :
  exists t hub score dc bc,
    @network_metrics flat_centrality one_edge_graph
    = (t, Some (MetricsCalculated hub score dc bc))
    /\ In (hub, score) dc
    /\ 0 < number_of_edges one_edge_graph.
Proof.
  destruct (@network_metrics flat_centrality one_edge_graph) as [t r] eqn:E.
  unfold network_metrics, call_degree_centrality, call_betweenness_centrality,
    lbind, lret in E. simpl in E. injection E as <- <-.
  do 5 eexists. split; [reflexivity|].
  destruct (top_hub_has_largest_degree flat_centrality one_edge_graph
              _ _ _ _ _ eq_refl) as (Hpos & _ & _ & Hin & _).
  split; [exact Hin|exact Hpos].
Defined.

(** X21.  On a graph with an edge, a failure of networkx ends step 5 at
    once: when degree centrality raises, betweenness centrality is never
    called; when betweenness raises, the step raises after the two calls;
    and when degree centrality returns an empty dict, taking its maximum
    raises. *)
Theorem network_metrics_failures (NX : Centrality) (G : Graph) :
  0 < number_of_edges G ->
  (nx_degree_centrality G = None ->
   network_metrics G = ([CallDegreeCentrality G], None))
  /\ (forall dc, nx_degree_centrality G = Some dc ->
        nx_betweenness_centrality G = None ->
        network_metrics G
        = ([CallDegreeCentrality G; CallBetweennessCentrality G], None))
  /\ (forall bc, nx_degree_centrality G = Some [] ->
        nx_betweenness_centrality G = Some bc ->
        network_metrics G
        = ([CallDegreeCentrality G; CallBetweennessCentrality G], None)).
Proof.
  intros Hpos. unfold network_metrics.
  destruct (Nat.ltb_spec 0 (number_of_edges G)) as [_|Hz]; [|lia].
  unfold call_degree_centrality, call_betweenness_centrality, lbind, lret.
  split; [|split].
  - intros ->. reflexivity.
  - intros dc -> ->. reflexivity.
  - intros bc -> ->. reflexivity.
Qed.

Lemma network_metrics_failures_witness :
  @network_metrics raising_centrality one_edge_graph
  = ([CallDegreeCentrality one_edge_graph], None).
Proof.
  apply (proj1 (network_metrics_failures raising_centrality one_edge_graph
                  ltac:(unfold one_edge_graph, number_of_edges; simpl; lia))).
  reflexivity.
Defined.

(** ** The requirements list *)

Lemma lstrip_head (l : list ascii) (c : ascii) (t : list ascii) :
  Setup.lstrip_chars l = c :: t -> Setup.is_space c = false.
Proof.
  induction l as [|a l' IH]; simpl; [discriminate|].
  destruct (Setup.is_space a) eqn:E; [exact IH|].
  intros [= <- _]. exact E.
Qed.

Lemma lstrip_fixed (c : ascii) (t : list ascii) :
  Setup.is_space c = false -> Setup.lstrip_chars (c :: t) = c :: t.
Proof. intros E. simpl. now rewrite E. Qed.

Lemma lstrip_blank (ws l : list ascii) :
  Forall (fun c => Setup.is_space c = true) ws ->
  Setup.lstrip_chars (ws ++ l) = Setup.lstrip_chars l.
Proof.
  induction 1 as [|c t Hc _ IH]; simpl; [reflexivity|]. now rewrite Hc.
Qed.

Lemma lstrip_keeps_last (l : list ascii) (c : ascii) :
  Setup.is_space c = false ->
  exists l', Setup.lstrip_chars (l ++ [c]) = l' ++ [c].
Proof.
  intros E. induction l as [|a t IH]; simpl.
  - rewrite E. now exists [].
  - destruct (Setup.is_space a); [exact IH|]. now exists (a :: t).
Qed.

Lemma rstrip_last (l t : list ascii) (c : ascii) :
  Setup.rstrip_chars l = t ++ [c] -> Setup.is_space c = false.
Proof.
  unfold Setup.rstrip_chars. intros H.
  apply (f_equal (@rev ascii)) in H. rewrite rev_involutive, rev_app_distr in H.
  simpl in H. now apply lstrip_head in H.
Qed.

Lemma rstrip_keeps_head (c : ascii) (t : list ascii) :
  Setup.is_space c = false ->
  exists t', Setup.rstrip_chars (c :: t) = c :: t'.
Proof.
  intros E. unfold Setup.rstrip_chars. simpl.
  destruct (lstrip_keeps_last (rev t) c E) as (l' & ->).
  rewrite rev_app_distr. simpl. now exists (rev l').
Qed.

Lemma rstrip_fixed (l t : list ascii) (c : ascii) :
  l = t ++ [c] -> Setup.is_space c = false -> Setup.rstrip_chars l = l.
Proof.
  intros -> E. unfold Setup.rstrip_chars. rewrite rev_app_distr. simpl.
  rewrite E. simpl. now rewrite rev_involutive.
Qed.

(** The characters of a stripped string: none, or a first and a last one
    that are not white space. *)
Lemma strip_chars_spec (l : list ascii) :
  let x := Setup.rstrip_chars (Setup.lstrip_chars l) in
  x = []
  \/ exists c t c', x = c :: t /\ Setup.is_space c = false
                    /\ (exists t', x = t' ++ [c']) /\ Setup.is_space c' = false.
Proof.
  intros x. subst x.
  destruct (Setup.lstrip_chars l) as [|c t] eqn:El; [now left|].
  pose proof (lstrip_head _ _ _ El) as Ec.
  destruct (rstrip_keeps_head c t Ec) as (t' & Er). right.
  destruct (exists_last (l := c :: t') ltac:(discriminate)) as (t'' & c' & Elast).
  exists c, t', c'. split; [exact Er|]. split; [exact Ec|].
  split; [exists t''; congruence|].
  apply (rstrip_last (c :: t) t'' c'). congruence.
Qed.

Lemma strip_idempotent (s : string) : Setup.strip (Setup.strip s) = Setup.strip s.
Proof.
  unfold Setup.strip. rewrite list_ascii_of_string_of_list_ascii. f_equal.
  destruct (strip_chars_spec (list_ascii_of_string s))
    as [->|(c & t & c' & Ex & Ec & (t' & Ex') & Ec')]; [reflexivity|].
  rewrite Ex at 1. rewrite (lstrip_fixed c t Ec), <- Ex.
  now apply (rstrip_fixed _ t' c').
Qed.

(** X22.  Every entry of the requirements list is the stripped text of a
    line of the file that does not begin with '#'; it is not empty, it
    neither begins nor ends with white space, and stripping it again changes
    nothing. *)
Theorem requirements_entries (lines : list string) (r : string) :
  In r (Setup.requirements lines) ->
  (exists line, In line lines /\ r = Setup.strip line
                /\ String.prefix "#" line = false)
  /\ r <> ""
  /\ Setup.strip r = r
  /\ (forall c t, list_ascii_of_string r = c :: t -> Setup.is_space c = false)
  /\ (forall t c, list_ascii_of_string r = t ++ [c] -> Setup.is_space c = false).
Proof.
  unfold Setup.requirements. intros Hin. apply in_map_iff in Hin.
  destruct Hin as (line & <- & Hline). apply filter_In in Hline.
  destruct Hline as (Hl & Hk). unfold Setup.keeps in Hk.
  apply andb_true_iff in Hk. destruct Hk as (Hne & Hc).
  apply negb_true_iff in Hne, Hc. apply String.eqb_neq in Hne.
  split; [exists line; auto|]. split; [exact Hne|].
  split; [apply strip_idempotent|].
  unfold Setup.strip. rewrite list_ascii_of_string_of_list_ascii.
  destruct (strip_chars_spec (list_ascii_of_string line))
    as [E|(c & t & c' & Ex & Ec & (t' & Ex') & Ec')].
  - split; [intros c t H|intros t c H]; rewrite E in H;
      [discriminate|destruct t; discriminate].
  - split.
    + intros c0 t0 H. rewrite Ex in H. injection H as <- _. exact Ec.
    + intros t0 c0 H. rewrite Ex' in H. apply app_inj_tail in H.
      destruct H as (_ & <-). exact Ec'.
Qed.

Lemma requirements_entries_witness :
  Setup.requirements [("numpy>=1.21.0" ++ String "010" "")%string; String "010" "";
                      ("# plots" ++ String "010" "")%string; "  pandas  "]
  = ["numpy>=1.21.0"; "pandas"]
  /\ Setup.strip "pandas" = "pandas".
Proof.
  split; [reflexivity|].
  apply (requirements_entries
           [("numpy>=1.21.0" ++ String "010" "")%string; String "010" "";
            ("# plots" ++ String "010" "")%string; "  pandas  "] "pandas").
  simpl. auto.
Defined.

Lemma strip_hash (t : string) :
  exists t', Setup.strip (String "#" t) = String "#" t'.
Proof.
  unfold Setup.strip. cbn [list_ascii_of_string].
  rewrite (lstrip_fixed "#" _ eq_refl).
  destruct (rstrip_keeps_head "#" (list_ascii_of_string t) eq_refl) as (t' & ->).
  exists (string_of_list_ascii t'). reflexivity.
Qed.

Lemma prefix_hash (t : string) : String.prefix "#" (String "#" t) = true.
Proof.
  simpl. destruct (ascii_dec "#" "#"); [|congruence]. destruct t; reflexivity.
Qed.

Lemma list_ascii_app (a b : string) :
  list_ascii_of_string (a ++ b)
  = list_ascii_of_string a ++ list_ascii_of_string b.
Proof.
  induction a as [|c a IH]; simpl; [reflexivity|]. now rewrite IH.
Qed.

(** X23.  A comment is dropped only when '#' is the very first character of
    its line: a line beginning with '#' gives no entry, but the same comment
    after some white space is kept, and its entry begins with '#'. *)
Theorem indented_comment_kept (ws t : string) :
  Setup.blank ws -> ws <> "" ->
  Setup.requirements [String "#" t] = []
  /\ Setup.requirements [(ws ++ String "#" t)%string] = [Setup.strip (String "#" t)]
  /\ String.prefix "#" (Setup.strip (String "#" t)) = true.
Proof.
  intros Hb Hne.
  destruct (strip_hash t) as (t' & Hs).
  assert (Hstrip : Setup.strip (ws ++ String "#" t) = Setup.strip (String "#" t)).
  { unfold Setup.strip. rewrite list_ascii_app, (lstrip_blank _ _ Hb). reflexivity. }
  split; [|split].
  - unfold Setup.requirements, Setup.keeps. cbn [filter].
    rewrite prefix_hash, andb_false_r. reflexivity.
  - unfold Setup.requirements, Setup.keeps. cbn [filter].
    rewrite Hstrip, Hs.
    assert (Hp : String.prefix "#" (ws ++ String "#" t) = false).
    { destruct ws as [|c ws']; [congruence|].
      inversion Hb as [|? ? Hc _]; subst.
      change (String c ws' ++ String "#" t)%string
        with (String c (ws' ++ String "#" t)%string).
      cbn [String.prefix].
      destruct (ascii_dec "#" c) as [<-|_]; [discriminate|reflexivity]. }
    rewrite Hp. simpl. rewrite Hstrip, Hs. reflexivity.
  - rewrite Hs. apply prefix_hash.
Qed.

Lemma indented_comment_kept_witness :
  Setup.requirements ["  # plots"] = ["# plots"]
  /\ Setup.requirements ["# plots"] = [].
Proof.
  destruct (indented_comment_kept "  " " plots") as (H0 & H1 & _).
  - repeat constructor.
  - discriminate.
  - split; [exact H1|exact H0].
Defined.
